(** * Virtual TA (ISOM 550): a shallow embedding of the Python sources

    The development follows the layout of the repository:

    - [llm_models] : [utils/llm_models.py], the [ModelWithFallback] wrapper;
    - [utils]      : [utils/utils.py], the query log;
    - [sidebar]    : [utils/sidebar.py], clearing and exporting the chat;
    - [app]        : [app.py], one run of the student chat script;
    - [admin]      : [pages/1_Knowledge_Base_Admin.py], the password gate,
                     the ingestion of one upload and the index update.

    Python dictionaries ([st.session_state], the logged document, the
    directory tree) are finite maps; an exception is a value of a sum type;
    what a function prints, renders or calls is appended to a trace. *)

From Stdlib Require Import Ascii String List Arith ZArith Lia DecimalString.
From stdpp Require Import base option list strings gmap.

Local Open Scope string_scope.
Local Open Scope list_scope.

(** ** Strings shared by the modules *)

(** ["c" * n] *)
Fixpoint repeat_char (c : ascii) (n : nat) : string :=
  match n with
  | O => EmptyString
  | S k => String c (repeat_char c k)
  end.

(** [needle in haystack] on Python strings *)
Fixpoint contains (needle haystack : string) : bool :=
  String.prefix needle haystack ||
  match haystack with
  | EmptyString => false
  | String _ rest => contains needle rest
  end.

(** [sep.join(parts)] *)
Fixpoint join (sep : string) (parts : list string) : string :=
  match parts with
  | [] => EmptyString
  | [p] => p
  | p :: rest => p +:+ sep +:+ join sep rest
  end.

(** ** utils/llm_models.py *)
Module llm_models.

Section ModelWithFallback.

(** The positional and keyword arguments of a call ([*args, **kwargs]), what
    a model returns, and what it raises.  [str] is [str(error)] as the
    f-string of [_log_fallback] formats it; [is_Exception e] says that [e]
    is an instance of [Exception], the only class the [except] clauses
    catch ([KeyboardInterrupt] and [SystemExit] are not).  [type_error v]
    is the [TypeError] of [await v] for a [v] that cannot be awaited. *)
Context {Args Val Exn : Type}.
Variable str : Exn -> string.
Variable is_Exception : Exn -> bool.
Variable type_error : Val -> Exn.

Inductive outcome (A : Type) : Type :=
| Returned (a : A)
| Raised (e : Exn).
Arguments Returned {A} a.
Arguments Raised {A} e.

(** The six methods the wrapper overrides. *)
Inductive method : Type :=
| m_generate | m_agenerate | m_invoke | m_ainvoke | m_stream | m_astream.

Definition method_name (m : method) : string :=
  match m with
  | m_generate => "_generate"
  | m_agenerate => "_agenerate"
  | m_invoke => "invoke"
  | m_ainvoke => "ainvoke"
  | m_stream => "stream"
  | m_astream => "astream"
  end.

(** The two fields of the wrapper that hold a model. *)
Inductive field : Type := Primary | Fallback.

(** What a call of the wrapper does to the outside: it calls a method of
    one of its two models, or prints a line. *)
Inductive event : Type :=
| Call (f : field) (m : method) (a : Args)
| Print (line : string).

(** A [BaseChatModel] answers a method call with a value or an exception;
    the answer may depend on everything that happened before (a provider
    that is down for the first call and up for the second). *)
Definition BaseChatModel : Type := method -> Args -> list event -> outcome Val.

Record ModelWithFallback : Type := {
  primary : BaseChatModel;
  fallback : BaseChatModel;
  verbose : bool
}.

(** Computations that extend the trace and return or raise. *)
Definition io (A : Type) : Type := list event -> outcome A * list event.

Definition ret {A} (a : A) : io A := fun tr => (Returned a, tr).

Definition bind {A B} (c : io A) (k : A -> io B) : io B :=
  fun tr =>
    match c tr with
    | (Returned a, tr') => k a tr'
    | (Raised e, tr') => (Raised e, tr')
    end.

(** [try: body  except Exception as e: handler(e)] *)
Definition try_except {A} (body : io A) (handler : Exn -> io A) : io A :=
  fun tr =>
    match body tr with
    | (Returned a, tr') => (Returned a, tr')
    | (Raised e, tr') =>
        if is_Exception e then handler e tr' else (Raised e, tr')
    end.

Definition print (line : string) : io unit :=
  fun tr => (Returned tt, tr ++ [Print line]).

(** [self.<f>.<m>( *args, **kwargs)], and for [_agenerate] and [ainvoke]
    [await self.<f>.<m>( *args, **kwargs)]: the method is a coroutine
    function, and awaiting its coroutine is the same step, nothing else of
    the wrapper runs in between. *)
Definition call (self : ModelWithFallback) (f : field) (m : method)
    (a : Args) : io Val :=
  fun tr =>
    (match f with Primary => primary self | Fallback => fallback self end m a tr,
     tr ++ [Call f m a]).

Definition _log_fallback (self : ModelWithFallback) (error : Exn)
    (method_name : string) : io unit :=
  if verbose self then
    print ("Primary model " +:+ method_name +:+ " failed with error: "
           +:+ str error +:+ ". Falling back to backup model.")
  else ret tt.

Definition _generate (self : ModelWithFallback) (a : Args) : io Val :=
  try_except (call self Primary m_generate a)
    (fun e => bind (_log_fallback self e "_generate")
                (fun _ => call self Fallback m_generate a)).

Definition _agenerate (self : ModelWithFallback) (a : Args) : io Val :=
  try_except (call self Primary m_agenerate a)
    (fun e => bind (_log_fallback self e "_agenerate")
                (fun _ => call self Fallback m_agenerate a)).

Definition invoke (self : ModelWithFallback) (a : Args) : io Val :=
  try_except (call self Primary m_invoke a)
    (fun e => bind (_log_fallback self e "invoke")
                (fun _ => call self Fallback m_invoke a)).

Definition ainvoke (self : ModelWithFallback) (a : Args) : io Val :=
  try_except (call self Primary m_ainvoke a)
    (fun e => bind (_log_fallback self e "ainvoke")
                (fun _ => call self Fallback m_ainvoke a)).

Definition stream (self : ModelWithFallback) (a : Args) : io Val :=
  try_except (call self Primary m_stream a)
    (fun e => bind (_log_fallback self e "stream")
                (fun _ => call self Fallback m_stream a)).

(** [await v] for what [astream] of a chat model returned.  [astream] of a
    [BaseChatModel] is an async generator function: the call gives an async
    generator, which is not awaitable, and the [await] raises. *)
Definition await_async_generator (v : Val) : io Val :=
  fun tr => (Raised (type_error v), tr).

(** [return await self.primary.astream(...)], and the same on the
    fallback: the [await] of the wrapper is inside the [try]. *)
Definition astream (self : ModelWithFallback) (a : Args) : io Val :=
  try_except (bind (call self Primary m_astream a) await_async_generator)
    (fun e => bind (_log_fallback self e "astream")
                (fun _ => bind (call self Fallback m_astream a)
                            await_async_generator)).

(** The method of the wrapper a caller reaches under each name. *)
Definition wrapper (self : ModelWithFallback) (m : method) : Args -> io Val :=
  match m with
  | m_generate => _generate self
  | m_agenerate => _agenerate self
  | m_invoke => invoke self
  | m_ainvoke => ainvoke self
  | m_stream => stream self
  | m_astream => astream self
  end.

Definition create_model_with_fallback (primary_model fallback_model : BaseChatModel)
    : ModelWithFallback :=
  {| primary := primary_model; fallback := fallback_model; verbose := true |}.

End ModelWithFallback.

Arguments Returned {Exn A} a.
Arguments Raised {Exn A} e.
Arguments Call {Args} f m a.
Arguments Print {Args} line.

(** *** Iterators

    What [stream] returns is an iterator: the caller pulls chunks out of it
    after the wrapper's method has returned.  An iterator yields a chunk
    and goes on, stops, or raises. *)
Inductive iterator (Chunk Exn : Type) : Type :=
| Yield (c : Chunk) (rest : iterator Chunk Exn)
| Stop
| Throw (e : Exn).
Arguments Yield {Chunk Exn} c rest.
Arguments Stop {Chunk Exn}.
Arguments Throw {Chunk Exn} e.

(** [for chunk in it: ...]: the chunks received, and the exception that
    ended the loop, if one did. *)
Fixpoint consume {Chunk Exn} (it : iterator Chunk Exn) : list Chunk * option Exn :=
  match it with
  | Yield c rest => let (cs, e) := consume rest in (c :: cs, e)
  | Stop => ([], None)
  | Throw e => ([], Some e)
  end.

(** An iterator that yields [cs] and then raises [e]. *)
Fixpoint fails_after {Chunk Exn} (cs : list Chunk) (e : Exn) : iterator Chunk Exn :=
  match cs with
  | [] => Throw e
  | c :: rest => Yield c (fails_after rest e)
  end.

End llm_models.

(** ** Python values shared by the Streamlit scripts *)

(** The exceptions the scripts meet; [OtherError] stands for whatever a
    library raises (a provider that is down, a file that does not parse). *)
Inductive exception : Type :=
| KeyError (key : string)
| AttributeError (name : string)
| ValueError (msg : string)
| FileNotFoundError (path : string)
| OtherError (msg : string).

(** [langchain_core.messages]: the two classes the scripts build. *)
Inductive message : Type :=
| HumanMessage (content : string)
| AIMessage (content : string).

Definition content (m : message) : string :=
  match m with
  | HumanMessage c => c
  | AIMessage c => c
  end.

(** [str(type(message))] *)
Definition type_str (m : message) : string :=
  match m with
  | HumanMessage _ => "<class 'langchain_core.messages.human.HumanMessage'>"
  | AIMessage _ => "<class 'langchain_core.messages.ai.AIMessage'>"
  end.

(** ["\n"] *)
Definition nl : string := String "010" EmptyString.

(** [str(n)] for a length *)
Definition str_nat (n : nat) : string :=
  NilEmpty.string_of_uint (Nat.to_uint n).

(** ** utils/utils.py *)
Module utils.

(** The values of a logged document. *)
Inductive field_value : Type :=
| Datetime (t : nat)
| Text (s : string)
| Number (n : Z)
| ObjectId (n : nat).

(** A MongoDB collection: the documents in the order they were inserted.
    [insert_one] stores the document, giving it an ["_id"] when it has
    none, and answers with that id.  This is the insert of a document the
    server accepts; the errors of the driver and the server (an ["_id"]
    already in the collection, an integer beyond 64 bits, the network) are
    not modelled. *)
Definition collection : Type := list (gmap string field_value).

Definition insert_one (coll : collection) (document : gmap string field_value)
    : field_value * collection :=
  match document !! "_id" with
  | Some id => (id, coll ++ [document])
  | None =>
      let id := ObjectId (length coll) in
      (id, coll ++ [<["_id" := id]> document])
  end.

(** [dict.update]: the keys of [other] win. *)
Definition update (d other : gmap string field_value) : gmap string field_value :=
  other ∪ d.

(** [process_and_store_query(collection, **kwargs)], at the time [now]. *)
Definition process_and_store_query (now : nat) (coll : collection)
    (kwargs : gmap string field_value) : field_value * collection :=
  let document : gmap string field_value := {[ "timestamp" := Datetime now ]} in
  let document := update document kwargs in
  insert_one coll document.

End utils.

(** ** Streamlit: the session and one run of a script *)
Module streamlit.

(** [st.session_state]: the keys the scripts use, each with the type of
    value the scripts store under it; [None] is a key that is absent. *)
Record session_state : Type := {
  chat_history : option (list message);
  password : option string;
  password_correct : option bool
}.

Definition empty_session : session_state :=
  {| chat_history := None; password := None; password_correct := None |}.

Definition set_chat_history (v : option (list message)) (ss : session_state) :=
  {| chat_history := v; password := password ss;
     password_correct := password_correct ss |}.

Definition set_password (v : option string) (ss : session_state) :=
  {| chat_history := chat_history ss; password := v;
     password_correct := password_correct ss |}.

Definition set_password_correct (v : option bool) (ss : session_state) :=
  {| chat_history := chat_history ss; password := password ss;
     password_correct := v |}.

(** What a run puts on the page. *)
Inductive element : Type :=
| Header (body : string)
| Title (body : string)
| Markdown (body : string)
| Caption (body : string)
| ChatMessage (name : string) (body : string)
| ErrorBox (body : string)
| SuccessBox (body : string)
| InfoBox (body : string)
| Button (label : string) (disabled : bool)
| DownloadButton (label data file_name : string)
| TextInput (label key : string)
| Stdout (line : string).

(** How a run ends: it falls off the end of the script, [st.rerun()] or
    [st.stop()] cuts it short, or an exception escapes. *)
Inductive result (A : Type) : Type :=
| Ok (a : A)
| Rerun
| Stopped
| Uncaught (e : exception).
Arguments Ok {A} a.
Arguments Rerun {A}.
Arguments Stopped {A}.
Arguments Uncaught {A} e.

Record page : Type := {
  state : session_state;
  screen : list element
}.

Definition script (A : Type) : Type := page -> result A * page.

Definition ret {A} (a : A) : script A := fun p => (Ok a, p).

Definition bind {A B} (c : script A) (k : A -> script B) : script B :=
  fun p =>
    match c p with
    | (Ok a, p') => k a p'
    | (Rerun, p') => (Rerun, p')
    | (Stopped, p') => (Stopped, p')
    | (Uncaught e, p') => (Uncaught e, p')
    end.

Definition get : script session_state := fun p => (Ok (state p), p).

Definition modify (f : session_state -> session_state) : script unit :=
  fun p => (Ok tt, {| state := f (state p); screen := screen p |}).

Definition show (e : element) : script unit :=
  fun p => (Ok tt, {| state := state p; screen := screen p ++ [e] |}).

Definition raise {A} (e : exception) : script A := fun p => (Uncaught e, p).

Definition rerun {A} : script A := fun p => (Rerun, p).

Definition stop {A} : script A := fun p => (Stopped, p).

(** [for x in xs: body(x)] *)
Fixpoint for_each {A} (xs : list A) (body : A -> script unit) : script unit :=
  match xs with
  | [] => ret tt
  | x :: rest => bind (body x) (fun _ => for_each rest body)
  end.

(** [st.session_state.chat_history]: an absent key is an [AttributeError]. *)
Definition get_chat_history : script (list message) :=
  bind get (fun ss =>
    match chat_history ss with
    | Some h => ret h
    | None => raise (AttributeError "chat_history")
    end).

End streamlit.

Declare Scope script_scope.
Delimit Scope script_scope with script.
Notation "x <- c ;; k" := (streamlit.bind c (fun x => k))
  (at level 100, c at next level, right associativity) : script_scope.
Notation "c ;;; k" := (streamlit.bind c (fun _ => k))
  (at level 100, right associativity) : script_scope.

Local Open Scope script_scope.

(** ** utils/sidebar.py *)
Module sidebar.
Import streamlit.

Section Sidebar.

(** [datetime.now().strftime(fmt)] *)
Variable now : string -> string.

(** [clear_chat_history()]: [st.rerun()] ends the run, so nothing after the
    call is reached. *)
Definition clear_chat_history : script unit :=
  modify (set_chat_history (Some [])) ;;;
  rerun.

(** The body of the loop of [save_chat_history]: what one message adds to
    [chat_content].  Both message classes have a [content] attribute, so
    the [hasattr] test holds. *)
Definition add_message (chat_content : string) (message : message) : string :=
  let chat_content :=
    if contains "AI" (type_str message) || contains "Assistant" (type_str message)
    then chat_content +:+ "🤖 AI Assistant:" +:+ nl +:+ content message +:+ nl +:+ nl
    else chat_content +:+ "👤 Student:" +:+ nl +:+ content message +:+ nl +:+ nl in
  chat_content +:+ repeat_char "-" 30 +:+ nl +:+ nl.

Definition save_chat_history (ss : session_state) : string :=
  match chat_history ss with
  | None => "No conversation history to save."
  | Some [] => "No conversation history to save."
  | Some h =>
      let timestamp := now "%Y-%m-%d %H:%M:%S" in
      let chat_content := "ISOM 550 DDA Virtual TA - Chat History" +:+ nl in
      let chat_content := chat_content +:+ "Saved on: " +:+ timestamp +:+ nl in
      let chat_content :=
        chat_content +:+ "Total Messages: " +:+ str_nat (length h) +:+ nl in
      let chat_content := chat_content +:+ repeat_char "=" 50 +:+ nl +:+ nl in
      fold_left add_message h chat_content
  end.

(** [sidebar()]: the branding and the chat management block.  The panels
    below it (tips, system status, footer) only render text and do not
    change the session; they are left out. *)
Definition sidebar (clear_clicked : bool) : script unit :=
  show (Markdown "# 🤖 Virtual TA") ;;;
  show (Markdown "**ISOM 550 - Data & Decision Analytics**") ;;;
  show (Markdown "*Goizueta Business School*") ;;;
  show (Markdown "---") ;;;
  show (Markdown "## 💬 Chat Management") ;;;
  ss <- get ;;
  match chat_history ss with
  | Some h => show (Markdown ("**Messages in conversation:** " +:+ str_nat (length h)))
  | None => ret tt
  end ;;;
  show (Button "🗑️ Clear" false) ;;;
  (if clear_clicked
   then clear_chat_history ;;; show (SuccessBox "Chat cleared!")
   else ret tt) ;;;
  ss <- get ;;
  match chat_history ss with
  | Some (_ :: _) =>
      let chat_content := save_chat_history ss in
      let timestamp := now "%Y%m%d_%H%M%S" in
      let filename := "chat_history_" +:+ timestamp +:+ ".txt" in
      show (DownloadButton "💾 Save" chat_content filename)
  | _ => show (Button "💾 Save" true)
  end ;;;
  show (Markdown "---").

End Sidebar.

End sidebar.

(** ** app.py *)
Module app.
Import streamlit.

Definition greeting : string :=
  "Hello! I'm your Virtual TA for ISOM 550. How can I help you today?".

(** [st.session_state.chat_history[-4:] if len(...) > 4 else ...] *)
Definition recent_history (chat_history : list message) : list message :=
  if (4 <? length chat_history)%nat
  then drop (length chat_history - 4) chat_history
  else chat_history.

(** ["\n".join([f"{'Human' if i % 2 == 0 else 'AI'}: {msg.content}" ...])] *)
Definition history_line (i : nat) (msg : message) : string :=
  (if (i mod 2 =? 0)%nat then "Human" else "AI") +:+ ": " +:+ content msg.

Definition history_text (recent_history : list message) : string :=
  join nl (imap history_line recent_history).

Section App.

Variable now : string -> string.

(** The module-level globals: [db] is what [load_db()] returned ([None]
    when loading failed), [rag_chain] the chain built from it.  A chain is
    run through [st.write_stream(rag_chain.stream({...}))], which gives the
    whole answer back or lets the exception of the chain through.  Of a
    stream that raises the model keeps the exception only: the part of the
    answer [st.write_stream] had put on the page by then is not recorded. *)
Context {Db : Type}.
Variable db : option Db.
Variable rag_chain : option (string -> string -> exception + string).

Definition display (message : message) : script unit :=
  match message with
  | HumanMessage c => show (ChatMessage "Human" c)
  | AIMessage c => show (ChatMessage "AI" c)
  end.

(** The body of [if user_query := st.chat_input(...)]: the query is shown;
    without a database or a chain the error is shown and [main] returns;
    otherwise the chain answers and the turn is appended. *)
Definition respond (user_query : string) : script unit :=
  show (ChatMessage "Human" user_query) ;;;
  match db, rag_chain with
  | Some _, Some chain =>
      h <- get_chat_history ;;
      let recent_history := recent_history h in
      let history_text := history_text recent_history in
      match chain user_query history_text with
      | inl e => raise e
      | inr response =>
          show (ChatMessage "AI" response) ;;;
          h <- get_chat_history ;;
          modify (set_chat_history
                    (Some (h ++ [HumanMessage user_query; AIMessage response])))
      end
  | _, _ =>
      show (ErrorBox "Knowledge base not available. Please contact your instructor.")
  end.

(** [main()]; [user_query] is what [st.chat_input] returned: [None], or a
    string, which is falsy when empty. *)
Definition main (clear_clicked : bool) (user_query : option string) : script unit :=
  show (Header "🦜 Virtual TA - ISOM 550 DDA") ;;;
  sidebar.sidebar now clear_clicked ;;;
  ss <- get ;;
  match chat_history ss with
  | None => modify (set_chat_history (Some [AIMessage greeting]))
  | Some _ => ret tt
  end ;;;
  h <- get_chat_history ;;
  (if (1 <? length h)%nat
   then show (Caption ("💬 Conversation: " +:+ str_nat (length h) +:+ " messages"))
   else ret tt) ;;;
  for_each h display ;;;
  match user_query with
  | None => ret tt
  | Some "" => ret tt
  | Some user_query => respond user_query
  end.

(** What the user does between two runs. *)
Inductive interaction : Type :=
| Open
| ClickClear
| Submit (user_query : string).

(** Streamlit runs the script with the widget values of the interaction
    and, when that run asked for a rerun, once more with no widget fired. *)
Definition interact (i : interaction) (ss : session_state) : result unit * page :=
  let first :=
    match i with
    | Open => main false None
    | ClickClear => main true None
    | Submit q => main false (Some q)
    end {| state := ss; screen := [] |} in
  match first with
  | (Rerun, p) => main false None {| state := state p; screen := [] |}
  | r => r
  end.

Definition step (ss : session_state) (i : interaction) : session_state :=
  state (snd (interact i ss)).

(** A browser session: the interactions in order, from an empty
    [st.session_state]. *)
Definition session (inputs : list interaction) : session_state :=
  fold_left step inputs empty_session.

End App.

End app.

(** ** Paths and files *)
Module os.

(** [s.lower()], on ASCII letters *)
Definition lower_char (c : ascii) : ascii :=
  let n := nat_of_ascii c in
  if (65 <=? n)%nat && (n <=? 90)%nat then ascii_of_nat (n + 32) else c.

Fixpoint lower (s : string) : string :=
  match s with
  | EmptyString => EmptyString
  | String c rest => String (lower_char c) (lower rest)
  end.

(** [s.rfind(c)] *)
Fixpoint rfind (c : ascii) (s : string) : option nat :=
  match s with
  | EmptyString => None
  | String a rest =>
      match rfind c rest with
      | Some i => Some (S i)
      | None => if Ascii.eqb a c then Some 0 else None
      end
  end.

(** [Path(p).name] of a path that does not end with ["/"]: what follows
    the last ["/"] *)
Definition name (p : string) : string :=
  match rfind "/" p with
  | Some i => String.substring (S i) (String.length p - S i) p
  | None => p
  end.

(** [Path(p).suffix]: the last dot of the name and what follows it, unless
    the dot starts or ends the name *)
Definition suffix (p : string) : string :=
  let n := name p in
  match rfind "." n with
  | Some i =>
      if (0 <? i)%nat && (i <? String.length n - 1)%nat
      then String.substring i (String.length n - i) n
      else EmptyString
  | None => EmptyString
  end.

(** [s.endswith(t)] *)
Definition endswith (s t : string) : bool :=
  String.eqb (String.substring (String.length s - String.length t) (String.length t) s) t.

(** [os.path.join(a, b)] for a relative [b] *)
Definition path_join (a b : string) : string :=
  if String.eqb a "" then b
  else if endswith a "/" then a +:+ b
  else a +:+ "/" +:+ b.

End os.

(** ** pages/1_Knowledge_Base_Admin.py *)
Module admin.
Import streamlit.

(** *** The password gate *)
Section Gate.

(** [st.secrets['general']['admin_password']] *)
Variable admin_password : string.

(** The [on_change] callback of the password box. *)
Definition password_entered : script unit :=
  ss <- get ;;
  match password ss with
  | None => raise (KeyError "password")
  | Some entered =>
      if String.eqb entered admin_password
      then modify (set_password_correct (Some true)) ;;;
           modify (set_password None)
      else modify (set_password_correct (Some false)) ;;;
           show (Stdout "")
  end.

(** [st.text_input(..., key="password")]: a keyed widget that is rendered
    has its value in the session, the empty string before anything was
    typed. *)
Definition text_input_password : script unit :=
  show (TextInput "Enter admin password:" "password") ;;;
  modify (fun ss =>
            match password ss with
            | None => set_password (Some "") ss
            | Some _ => ss
            end).

(** [check_password()], after the callback has run. *)
Definition check_password : script bool :=
  ss <- get ;;
  if default false (password_correct ss) then ret true
  else
    show (Markdown "# 🔐 Authentication Required") ;;;
    show (Markdown "**Knowledge Base Manager - Admin Access Only**") ;;;
    show (Markdown "---") ;;;
    text_input_password ;;;
    ss <- get ;;
    match password_correct ss with
    | Some false =>
        show (ErrorBox "❌ Incorrect password. Please contact your instructor.")
    | _ => ret tt
    end ;;;
    show (Markdown "---") ;;;
    show (InfoBox "💡 **For Students**: Return to the main Virtual TA page to ask questions about course content.") ;;;
    ret false.

(** [main()] down to the two tabs.  What the tabs do on the operator's
    later clicks is embedded below ([process_file],
    [update_or_create_faiss_index]). *)
Definition main (logout_clicked : bool) : script unit :=
  show (Markdown "### 🔐 Admin Session") ;;;
  show (SuccessBox "✅ Authenticated as admin") ;;;
  show (Button "🚪 Logout" false) ;;;
  (if logout_clicked
   then modify (set_password_correct (Some false)) ;;; rerun
   else ret tt) ;;;
  show (Markdown "---") ;;;
  show (Title "📚 Knowledge Base Manager") ;;;
  show (Markdown "*Admin Interface - Manage course materials and test the knowledge base*").

(** The page from top to bottom: the gate, then the protected content. *)
Definition page_script (logout_clicked : bool) : script unit :=
  ok <- check_password ;;
  if negb ok then stop else main logout_clicked.

(** The operator types [entered] into the password box and presses Enter:
    Streamlit stores the value under the widget's key, runs the callback
    and then the page. *)
Definition submit_password (entered : string) : script unit :=
  modify (set_password (Some entered)) ;;;
  password_entered ;;;
  page_script false.

End Gate.

(** *** Files on disk and the knowledge base *)
Section Store.

(** A chunk of text with its metadata, and the vector the embedding model
    ([OpenAIEmbeddings()]) maps it to. *)
Context {Document Vector : Type}.
Variable embed : Document -> Vector.

Inductive file : Type :=
| Bytes (data : string)
| IndexFaiss (vectors : list Vector)
| IndexPkl (docs : list Document).

Record filesystem : Type := {
  dirs : gset string;
  files : gmap string file
}.

(** Computations on the disk that return or raise. *)
Definition fsm (A : Type) : Type := filesystem -> (exception + A) * filesystem.

Definition fs_ret {A} (a : A) : fsm A := fun fs => (inr a, fs).

Definition fs_bind {A B} (c : fsm A) (k : A -> fsm B) : fsm B :=
  fun fs =>
    match c fs with
    | (inr a, fs') => k a fs'
    | (inl e, fs') => (inl e, fs')
    end.

Definition fs_lift {A} (r : exception + A) : fsm A := fun fs => (r, fs).

(** [try: body  finally: cleanup]: the cleanup runs whatever the body did;
    an exception of the cleanup replaces the outcome of the body. *)
Definition try_finally {A} (body : fsm A) (cleanup : fsm unit) : fsm A :=
  fun fs =>
    let (r, fs1) := body fs in
    match cleanup fs1 with
    | (inr _, fs2) => (r, fs2)
    | (inl e, fs2) => (inl e, fs2)
    end.

Definition path_exists (path : string) : fsm bool :=
  fun fs => (inr (bool_decide (is_Some (files fs !! path)) || bool_decide (path ∈ dirs fs)), fs).

(** [os.makedirs(path, exist_ok=True)]: the empty path is refused with a
    [FileNotFoundError]. *)
Definition makedirs (path : string) : fsm unit :=
  fun fs =>
    if String.eqb path ""
    then (inl (FileNotFoundError ""), fs)
    else (inr tt, {| dirs := {[ path ]} ∪ dirs fs; files := files fs |}).

(** [Path(path).mkdir(exist_ok=True, parents=True)], the directory a
    library makes for its own files; the empty path is the current
    directory. *)
Definition mkdir (path : string) : fsm unit :=
  fun fs => (inr tt, {| dirs := {[ path ]} ∪ dirs fs; files := files fs |}).

Definition write_file (path : string) (f : file) : fsm unit :=
  fun fs => (inr tt, {| dirs := dirs fs; files := <[ path := f ]> (files fs) |}).

(** [os.unlink(path)] *)
Definition unlink (path : string) : fsm unit :=
  fun fs =>
    match files fs !! path with
    | Some _ => (inr tt, {| dirs := dirs fs; files := delete path (files fs) |})
    | None => (inl (FileNotFoundError path), fs)
    end.

End Store.

Arguments file : clear implicits.
Arguments filesystem : clear implicits.
Arguments fsm : clear implicits.

Declare Scope fs_scope.
Delimit Scope fs_scope with fs.
Notation "x <- c ;; k" := (fs_bind c (fun x => k))
  (at level 100, c at next level, right associativity) : fs_scope.
Notation "c ;;; k" := (fs_bind c (fun _ => k))
  (at level 100, right associativity) : fs_scope.

(** *** The vector store *)
Section FAISS.
Local Open Scope fs_scope.

Context {Document Vector : Type}.
Variable embed : Document -> Vector.

(** Modelled from the spec: the vector store
    [langchain_community.vectorstores.FAISS], a library the repository
    calls and does not contain (Knowledge Base Store, operations [load],
    [add_documents], [from_documents], [save]).  An index in memory is the
    vectors with the chunks they come from, in insertion order. *)
Record FAISS : Type := {
  index : list Vector;
  docstore : list Document
}.

(** Modelled from the spec: [FAISS.from_documents] of the absent library,
    "builds a brand-new index from scratch". *)
Definition from_documents (documents : list Document) : FAISS :=
  {| index := embed <$> documents; docstore := documents |}.

(** Modelled from the spec: [FAISS.add_documents] of the absent library,
    "embeds each chunk's text with the bound embedding model and appends
    the resulting vectors+metadata to the existing in-memory index". *)
Definition add_documents (db : FAISS) (documents : list Document) : FAISS :=
  {| index := index db ++ (embed <$> documents);
     docstore := docstore db ++ documents |}.

(** Modelled from the spec: [FAISS.save_local] of the absent library,
    "persists the current in-memory index state to disk at the given path,
    creating the directory if absent; overwrites any existing index files
    at that path".  The two files are the library's: [index.faiss] and
    [index.pkl]. *)
Definition save_local (db : FAISS) (folder_path : string)
    : fsm Document Vector unit :=
  mkdir folder_path ;;;
  write_file (os.path_join folder_path "index.faiss") (IndexFaiss (index db)) ;;;
  write_file (os.path_join folder_path "index.pkl") (IndexPkl (docstore db)).

(** Modelled from the spec: [FAISS.load_local] of the absent library,
    "fails with a Load error if no index exists at the path or if the
    persisted format is incompatible; the loader must explicitly permit
    deserializing trusted local index files".  The permission is the
    keyword [allow_dangerous_deserialization], [False] when the caller does
    not pass it; without it the library raises a [ValueError] before it
    opens a file. *)
Definition load_local (folder_path : string)
    (allow_dangerous_deserialization : bool) : fsm Document Vector FAISS :=
  fun fs =>
    if negb allow_dangerous_deserialization
    then (inl (ValueError "allow_dangerous_deserialization must be True to load a pickled index"), fs)
    else
      match files fs !! os.path_join folder_path "index.faiss",
            files fs !! os.path_join folder_path "index.pkl" with
      | Some (IndexFaiss vectors), Some (IndexPkl docs) =>
          (inr {| index := vectors; docstore := docs |}, fs)
      | _, _ => (inl (OtherError "could not read the index"), fs)
      end.

(** [update_or_create_faiss_index(chunks, db_path)].  The call of
    [load_local] passes the path and the embeddings only. *)
Definition update_or_create_faiss_index (chunks : list Document)
    (db_path : string) : fsm Document Vector FAISS :=
  found <- path_exists (os.path_join db_path "index.faiss") ;;
  db <- (if found : bool
         then db <- load_local db_path false ;;
              fs_ret (add_documents db chunks)
         else fs_ret (from_documents chunks)) ;;
  makedirs db_path ;;;
  save_local db db_path ;;;
  fs_ret db.

(** The write sequence in the words of the specification: "check whether
    an index file exists at the path; if yes, load it, embed+append the new
    chunks, save; if no, build a brand-new index directly from the new
    chunks and save".  Loading is the store's [load], which permits the
    deserialization, as the three read paths of the repository do
    ([app.load_db], [utils.load_db], [test_embedding_search]). *)
Definition update_or_create_spec (chunks : list Document)
    (db_path : string) : fsm Document Vector FAISS :=
  found <- path_exists (os.path_join db_path "index.faiss") ;;
  if found : bool
  then db <- load_local db_path true ;;
       let db := add_documents db chunks in
       save_local db db_path ;;; fs_ret db
  else let db := from_documents chunks in
       save_local db db_path ;;; fs_ret db.

End FAISS.

(** *** Ingestion of one upload *)
Section Ingestion.
Local Open Scope fs_scope.

Context {Document Vector : Type}.

(** An upload of [st.file_uploader]: its name and [getvalue()]. *)
Record UploadedFile : Type := {
  file_name : string;
  getvalue : string
}.

Inductive loader_class : Type :=
| PyPDFLoader | Docx2txtLoader | TextLoader | UnstructuredFileLoader.

Record loader : Type := {
  class : loader_class;
  file_path : string
}.

(** What a loader makes of the bytes of a file, and the stem of the name
    [tempfile] picks (directory, prefix and random part). *)
Variable parse : loader_class -> string -> exception + list Document.
Variable mkstemp : filesystem Document Vector -> string.

Definition get_file_loader (file_path : string) : loader :=
  let file_extension := os.lower (os.suffix file_path) in
  if String.eqb file_extension ".pdf" then
    {| class := PyPDFLoader; file_path := file_path |}
  else if String.eqb file_extension ".docx" then
    {| class := Docx2txtLoader; file_path := file_path |}
  else if String.eqb file_extension ".txt" then
    {| class := TextLoader; file_path := file_path |}
  else
    {| class := UnstructuredFileLoader; file_path := file_path |}.

(** [loader.load()]: the loader opens the file it was given. *)
Definition load (l : loader) : fsm Document Vector (list Document) :=
  fun fs =>
    match files fs !! file_path l with
    | Some (Bytes data) => (parse (class l) data, fs)
    | _ => (inl (FileNotFoundError (file_path l)), fs)
    end.

(** [with tempfile.NamedTemporaryFile(delete=False, suffix=...) as tmp_file:
     tmp_file.write(data); tmp_file_path = tmp_file.name] *)
Definition named_temporary_file (suffix data : string)
    : fsm Document Vector string :=
  fun fs =>
    let tmp_file_path := mkstemp fs +:+ suffix in
    (inr tmp_file_path,
     {| dirs := dirs fs; files := <[ tmp_file_path := Bytes data ]> (files fs) |}).

(** [process_file(file, text_splitter)]; the splitter is its
    [split_documents]. *)
Definition process_file (file : UploadedFile)
    (text_splitter : list Document -> exception + list Document)
    : fsm Document Vector (list Document) :=
  tmp_file_path <-
    named_temporary_file (os.suffix (file_name file)) (getvalue file) ;;
  try_finally
    (let loader := get_file_loader tmp_file_path in
     documents <- load loader ;;
     chunks <- fs_lift (text_splitter documents) ;;
     fs_ret chunks)
    (unlink tmp_file_path).

End Ingestion.

End admin.

(** ** app.py and utils/utils.py: loading the knowledge base *)
Module app_startup.
Import streamlit admin.

Section Startup.

Context {Document Vector : Type}.

(** [str(e)] of the f-strings that report an exception. *)
Variable str : exception -> string.

(** The body of [load_db(db_path)] of [app.py], which runs on the first
    call in a process (see [cache_resource] below): the index, or [None]
    with an error on the page. *)
Definition load_db (db_path : string) (fs : filesystem Document Vector)
    : option (@FAISS Document Vector) * list element :=
  match fst (load_local db_path true fs) with
  | inr db => (Some db, [])
  | inl e => (None, [ErrorBox ("Error loading database: " +:+ str e)])
  end.

(** The globals of [app.py]: [db = load_db()], with the default path, and
    [rag_chain = chains.rag_chain(llm, retriever) if db else None];
    [build_chain] is [chains.rag_chain] applied to the model and to the
    retriever of the index. *)
Definition db (fs : filesystem Document Vector) : option (@FAISS Document Vector) :=
  fst (load_db "data/" fs).

Definition rag_chain
    (build_chain : @FAISS Document Vector -> string -> string -> exception + string)
    (fs : filesystem Document Vector)
    : option (string -> string -> exception + string) :=
  match db fs with
  | Some index => Some (build_chain index)
  | None => None
  end.



End Startup.

End app_startup.

Module utils_db.
Import streamlit admin.

(** [kb_db_path] *)
Definition kb_db_path : string := "data/emb_db".

(** [load_db(db_path=kb_db_path)] of [utils/utils.py]: no [try]; the line
    "Database loaded" is printed when the index was read. *)
Definition load_db {Document Vector : Type} (db_path : string)
    (fs : filesystem Document Vector)
    : (exception + @FAISS Document Vector) * list element :=
  match fst (load_local db_path true fs) with
  | inr db_loaded => (inr db_loaded, [Stdout "Database loaded"])
  | inl e => (inl e, [])
  end.

End utils_db.

(** ** pages/1_Knowledge_Base_Admin.py: the actions of the protected page *)
Module admin_page.
Import streamlit admin.

(** A click on "Logout": the run that handles the click asks for a rerun,
    and Streamlit runs the page again with no widget fired. *)
Definition click_logout (ss : session_state) : result unit * page :=
  match page_script true {| state := ss; screen := [] |} with
  | (Rerun, p) => page_script false {| state := state p; screen := [] |}
  | r => r
  end.

Section Upload.

Context {Document Vector : Type}.
Variable embed : Document -> Vector.
Variable parse : loader_class -> string -> exception + list Document.
Variable mkstemp : filesystem Document Vector -> string.
Variable str : exception -> string.

(** The disk and the page, side by side. *)
Record workspace : Type := {
  disk : filesystem Document Vector;
  shown : list element
}.

Definition action (A : Type) : Type := workspace -> (exception + A) * workspace.

Definition act_ret {A} (a : A) : action A := fun w => (inr a, w).

Definition act_bind {A B} (c : action A) (k : A -> action B) : action B :=
  fun w =>
    match c w with
    | (inr a, w') => k a w'
    | (inl e, w') => (inl e, w')
    end.

(** A computation on the disk, run from the page. *)
Definition on_disk {A} (c : fsm Document Vector A) : action A :=
  fun w =>
    let (r, fs) := c (disk w) in
    (r, {| disk := fs; shown := shown w |}).

Definition render (e : element) : action unit :=
  fun w => (inr tt, {| disk := disk w; shown := shown w ++ [e] |}).

(** [try: body  except Exception as e: handler(e)]; every exception of the
    scripts is an [Exception]. *)
Definition act_try {A} (body : action A) (handler : exception -> action A)
    : action A :=
  fun w =>
    match body w with
    | (inr a, w') => (inr a, w')
    | (inl e, w') => handler e w'
    end.

(** The loop [for file in uploaded_files] of the upload tab, with
    [all_chunks] as it stands when the loop reaches the files left. *)
Fixpoint process_files (uploaded_files : list UploadedFile)
    (text_splitter : list Document -> exception + list Document)
    (all_chunks : list Document) : action (list Document) :=
  match uploaded_files with
  | [] => act_ret all_chunks
  | file :: rest =>
      act_bind (render (Markdown ("Processing " +:+ file_name file +:+ "...")))
        (fun _ =>
      act_bind (on_disk (process_file parse mkstemp file text_splitter))
        (fun chunks =>
      let all_chunks := all_chunks ++ chunks in
      act_bind (render (Markdown ("✅ Extracted " +:+ str_nat (length chunks)
                                  +:+ " chunks from " +:+ file_name file)))
        (fun _ => process_files rest text_splitter all_chunks)))
  end.

(** The chunks the loop gets from each file, in the order of the
    selection, up to the first file that raises: the upload is written to
    the temporary file named after the disk of that moment, the loader for
    that name parses the bytes, the splitter cuts the documents, and the
    temporary file is gone before the next file. *)
Fixpoint chunks_per_file (uploaded_files : list UploadedFile)
    (text_splitter : list Document -> exception + list Document)
    (fs : filesystem Document Vector) : list (list Document) :=
  match uploaded_files with
  | [] => []
  | file :: rest =>
      let tmp_file_path := mkstemp fs +:+ os.suffix (file_name file) in
      match parse (class (get_file_loader tmp_file_path)) (getvalue file) with
      | inr documents =>
          match text_splitter documents with
          | inr chunks =>
              chunks ::
              chunks_per_file rest text_splitter
                {| dirs := dirs fs;
                   files := delete tmp_file_path
                              (<[ tmp_file_path := Bytes (getvalue file) ]> (files fs)) |}
          | inl _ => []
          end
      | inl _ => []
      end
  end.

(** The body of [if uploaded_files and st.button("Process Files")]. *)
Definition process_uploads (uploaded_files : list UploadedFile)
    (text_splitter : list Document -> exception + list Document) : action unit :=
  act_try
    (act_bind (process_files uploaded_files text_splitter [])
       (fun all_chunks =>
          match all_chunks with
          | [] => act_ret tt
          | _ :: _ =>
              act_bind (render (Markdown "Updating knowledge base..."))
                (fun _ =>
              act_bind (on_disk (update_or_create_faiss_index embed all_chunks "data/"))
                (fun db =>
              act_bind (render (SuccessBox ("Successfully processed "
                          +:+ str_nat (length all_chunks)
                          +:+ " chunks and updated the knowledge base!")))
                (fun _ =>
              act_bind (render (Markdown "### Summary")) (fun _ =>
              act_bind (render (Markdown ("- Total files processed: "
                          +:+ str_nat (length uploaded_files)))) (fun _ =>
              act_bind (render (Markdown ("- Total chunks added: "
                          +:+ str_nat (length all_chunks)))) (fun _ =>
              act_bind (render (Markdown "- Database location: data/")) (fun _ =>
              render (Button "🔍 Test the Updated Knowledge Base" false))))))))
          end))
    (fun e => render (ErrorBox ("An error occurred: " +:+ str e))).

(** The upload tab on a run: the action runs when files are selected and
    "Process Files" was clicked. *)
Definition upload_tab (uploaded_files : list UploadedFile)
    (process_clicked : bool)
    (text_splitter : list Document -> exception + list Document) : action unit :=
  match uploaded_files with
  | [] => act_ret tt
  | _ :: _ =>
      if process_clicked then process_uploads uploaded_files text_splitter
      else act_ret tt
  end.

(** [db.similarity_search_with_relevance_scores(query, k=k)] *)
Variable similarity_search_with_relevance_scores :
  @FAISS Document Vector -> string -> nat -> exception + list (Document * Z).

(** [test_embedding_search(query, k)]: the results and the retriever (the
    index with its [k]), or nothing, with an error on the page. *)
Definition test_embedding_search (query : string) (k : nat)
    : action (list (Document * Z) * option (@FAISS Document Vector * nat)) :=
  let db_path := "data/" in
  act_try
    (act_bind (on_disk (load_local db_path true)) (fun db =>
     act_bind (fun w => (similarity_search_with_relevance_scores db query k, w))
       (fun docs => act_ret (docs, Some (db, k)))))
    (fun e =>
       act_bind (render (ErrorBox ("Error searching database: " +:+ str e)))
         (fun _ => act_ret ([], None))).

End Upload.

End admin_page.

(** * The transcript in the words of the specification *)

(** [concat_all [a; b; c]] is [a], [b] and [c] one after the other. *)
Fixpoint concat_all (parts : list string) : string :=
  match parts with
  | [] => EmptyString
  | p :: rest => p +:+ concat_all rest
  end.

(** The block of one message: its label, chosen by the class of the
    message, its content, and a line of thirty dashes. *)
Definition transcript_block (m : message) : string :=
  match m with
  | AIMessage c =>
      "🤖 AI Assistant:" +:+ nl +:+ c +:+ nl +:+ nl +:+
      "------------------------------" +:+ nl +:+ nl
  | HumanMessage c =>
      "👤 Student:" +:+ nl +:+ c +:+ nl +:+ nl +:+
      "------------------------------" +:+ nl +:+ nl
  end.

(** How often a character occurs in a string. *)
Fixpoint count_char (c : ascii) (s : string) : nat :=
  match s with
  | EmptyString => 0
  | String a rest => (if Ascii.eqb a c then 1 else 0) + count_char c rest
  end.

(** * The chat history in the words of the specification *)

(** "The sequence always begins with a synthetic greeting Assistant
    message". *)
Definition begins_with_greeting (ss : streamlit.session_state) : Prop :=
  exists rest, streamlit.chat_history ss = Some (AIMessage app.greeting :: rest).

(** After a click on "Clear" the history is empty or begins with a query
    of the user, and stays so. *)
Definition cleared (ss : streamlit.session_state) : Prop :=
  streamlit.chat_history ss = Some [] \/
  exists q rest, streamlit.chat_history ss = Some (HumanMessage q :: rest).

(** What [display] puts on the page for a message. *)
Definition bubble (m : message) : streamlit.element :=
  match m with
  | HumanMessage c => streamlit.ChatMessage "Human" c
  | AIMessage c => streamlit.ChatMessage "AI" c
  end.

(** What a submitted query adds to the history [h]: the query and the
    answer when the chain gave one, nothing otherwise. *)
Definition turn {Db : Type} (db : option Db)
    (rag_chain : option (string -> string -> exception + string))
    (user_query : string) (h : list message) : list message :=
  match user_query, db, rag_chain with
  | EmptyString, _, _ => []
  | _, Some _, Some chain =>
      match chain user_query (app.history_text (app.recent_history h)) with
      | inr response => [HumanMessage user_query; AIMessage response]
      | inl _ => []
      end
  | _, _, _ => []
  end.

(** The class of a message, and a history in which the classes take
    turns: with [human_first] the messages at even places are the user's
    and those at odd places the assistant's, without it the other way
    round. *)
Definition is_human (m : message) : bool :=
  match m with
  | HumanMessage _ => true
  | AIMessage _ => false
  end.

Definition alternates (human_first : bool) (h : list message) : Prop :=
  forall i m, h !! i = Some m -> is_human m = Bool.eqb human_first (Nat.even i).

(** A history of whole turns ([human_first]) or of the greeting and whole
    turns (not [human_first]). *)
Definition in_turns (human_first : bool) (h : list message) : Prop :=
  Nat.even (length h) = human_first /\ alternates human_first h.

(** A session whose history is in turns. *)
Definition shaped (b : bool) (ss : streamlit.session_state) : Prop :=
  exists h, streamlit.chat_history ss = Some h /\ in_turns b h.

(** * Sample inputs *)

(** A provider that times out in front of a provider that is over quota. *)
Definition both_down : @llm_models.ModelWithFallback string string string :=
  llm_models.create_model_with_fallback
    (fun _ _ _ => llm_models.Raised "timeout")
    (fun _ _ _ => llm_models.Raised "quota").

(** A primary whose stream breaks after two chunks, in front of a healthy
    fallback. *)
Definition breaks_midway
    : @llm_models.ModelWithFallback string (llm_models.iterator string string) string :=
  llm_models.create_model_with_fallback
    (fun _ _ _ => llm_models.Returned (llm_models.fails_after ["The "; "dead"] "reset"))
    (fun _ _ _ => llm_models.Returned
                    (llm_models.Yield "The deadline." llm_models.Stop)).

(** A caller that passes its own "timestamp". *)
Definition backdated : gmap string utils.field_value :=
  {[ "timestamp" := utils.Text "yesterday"; "query" := utils.Text "When is A2 due?" ]}.

(** A clock for the two formats the sidebar asks for. *)
Definition sample_clock (fmt : string) : string :=
  if String.eqb fmt "%Y-%m-%d %H:%M:%S" then "2025-03-01 09:30:00"
  else "20250301_093000".

(** A chain that answers every query with the same sentence. *)
Definition sample_chain : option (string -> string -> exception + string) :=
  Some (fun _ _ => inr "It is due on March 15.").

(** A session right after the first load of the chat page. *)
Definition fresh_chat : streamlit.session_state :=
  streamlit.set_chat_history (Some [AIMessage app.greeting]) streamlit.empty_session.

(** Chunks of two uploads, with the length of a chunk for its vector, and
    an empty disk. *)
Definition first_upload : list string := ["The deadline for Assignment 2 is March 15."].
Definition second_upload : list string := ["Office hours are on Fridays."].
Definition sample_embed (chunk : string) : nat := String.length chunk.
Definition empty_disk : admin.filesystem string nat :=
  {| admin.dirs := ∅; admin.files := ∅ |}.

(** An uploaded text file, a loader that gives one document per file and
    fails on an empty one, and a splitter that keeps documents whole. *)
Definition sample_upload : admin.UploadedFile :=
  {| admin.file_name := "syllabus.TXT"; admin.getvalue := "Week 1: regression" |}.
Definition sample_parse (c : admin.loader_class) (data : string)
    : exception + list string :=
  if String.eqb data "" then inl (OtherError "empty file") else inr [data].
Definition sample_mkstemp (fs : admin.filesystem string nat) : string := "/tmp/tmpk3v9x1".
Definition sample_splitter (docs : list string) : exception + list string := inr docs.

(** A primary that is interrupted, and the test that tells an [Exception]
    from an interrupt. *)
Definition is_error (e : string) : bool := negb (String.eqb e "KeyboardInterrupt").
Definition interrupted : @llm_models.ModelWithFallback string string string :=
  llm_models.create_model_with_fallback
    (fun _ _ _ => llm_models.Raised "KeyboardInterrupt")
    (fun _ _ _ => llm_models.Returned "never asked").

(** A primary that times out, in front of a fallback that answers. *)
Definition timing_out : @llm_models.BaseChatModel string string string :=
  fun _ _ _ => llm_models.Raised "timeout".
Definition answering : @llm_models.BaseChatModel string string string :=
  fun _ _ _ => llm_models.Returned "March 15".

(** The answer of [sample_chain], a chain that is down, and a question. *)
Definition sample_answer : string := "It is due on March 15.".
Definition answering_chain (query history_text : string) : exception + string :=
  inr sample_answer.
Definition failing_chain (query history_text : string) : exception + string :=
  inl (OtherError "provider down").
Definition sample_query : string := "When is A2 due?".

(** A session of an operator who is logged in. *)
Definition logged_in : streamlit.session_state :=
  streamlit.set_password_correct (Some true) streamlit.empty_session.

(** A disk on which the first upload has been indexed. *)
Definition indexed_disk : admin.filesystem string nat :=
  {| admin.dirs := {[ "data/" ]};
     admin.files :=
       {[ "data/index.faiss" := admin.IndexFaiss [42%nat];
          "data/index.pkl" := admin.IndexPkl first_upload ]} |}.

(** [str(e)] for the exceptions of the samples. *)
Definition sample_str (e : exception) : string :=
  match e with
  | KeyError key => "'" +:+ key +:+ "'"
  | AttributeError name => name
  | ValueError msg => msg
  | FileNotFoundError path => "[Errno 2] No such file or directory: '" +:+ path +:+ "'"
  | OtherError msg => msg
  end.

(** An upload without content, which [sample_parse] refuses. *)
Definition empty_upload : admin.UploadedFile :=
  {| admin.file_name := "blank.txt"; admin.getvalue := "" |}.

(** A page with nothing on it yet, over a disk. *)
Definition blank_page (fs : admin.filesystem string nat)
    : @admin_page.workspace string nat :=
  {| admin_page.disk := fs; admin_page.shown := [] |}.

(** A search that gives every chunk of the index the same score. *)
Definition sample_search (db : @admin.FAISS string nat) (query : string) (k : nat)
    : exception + list (string * Z) :=
  inr (take k ((fun doc => (doc, 1%Z)) <$> admin.docstore db)).

(** The [TypeError] of an [await] on an async generator, two providers
    that are up, and two providers whose streams are healthy. *)
Definition not_awaitable (v : string) : string :=
  "object async_generator can't be used in 'await' expression".
Definition stream_not_awaitable (it : llm_models.iterator string string) : string :=
  "object async_generator can't be used in 'await' expression".
Definition both_up : @llm_models.ModelWithFallback string string string :=
  llm_models.create_model_with_fallback
    (fun _ _ _ => llm_models.Returned "a stream of the primary")
    (fun _ _ _ => llm_models.Returned "a stream of the fallback").
Definition healthy_streams
    : @llm_models.ModelWithFallback string (llm_models.iterator string string) string :=
  llm_models.create_model_with_fallback
    (fun _ _ _ => llm_models.Returned
                    (llm_models.Yield "The deadline "
                       (llm_models.Yield "is March 15." llm_models.Stop)))
    (fun _ _ _ => llm_models.Returned
                    (llm_models.Yield "March 15." llm_models.Stop)).

(** * Properties *)

(** ** The fallback wrapper *)
Section FallbackFacts.
Import llm_models.

Context {Args Val Exn : Type}.
Variable str : Exn -> string.
Variable is_Exception : Exn -> bool.
Variable type_error : Val -> Exn.

Implicit Types (self : @ModelWithFallback Args Val Exn) (m : method) (a : Args).
Implicit Types (tr : list (@event Args)).

(** The five methods other than [astream] are one pattern, instantiated at
    the method and at its name. *)
Lemma wrapper_unfold self m a tr :
  m <> m_astream ->
  wrapper str is_Exception type_error self m a tr =
  try_except is_Exception (call self Primary m a)
    (fun e => bind (_log_fallback str self e (method_name m))
                (fun _ => call self Fallback m a)) tr.
Proof. destruct m; intros Hm; try reflexivity. congruence. Qed.

Lemma wrapper_primary_returns self m a tr v :
  m <> m_astream ->
  primary self m a tr = Returned v ->
  wrapper str is_Exception type_error self m a tr =
  (Returned v, tr ++ [Call Primary m a]).
Proof.
  intros Hm Hp. rewrite wrapper_unfold by exact Hm.
  unfold try_except, call. rewrite Hp. reflexivity.
Qed.

Lemma wrapper_not_caught self m a tr e :
  primary self m a tr = Raised e -> is_Exception e = false ->
  wrapper str is_Exception type_error self m a tr =
  (Raised e, tr ++ [Call Primary m a]).
Proof.
  intros Hp He.
  destruct m; unfold wrapper, _generate, _agenerate, invoke, ainvoke, stream, astream,
    try_except, bind, call; rewrite Hp, He; reflexivity.
Qed.

Lemma wrapper_primary_raises self m a tr e :
  m <> m_astream ->
  primary self m a tr = Raised e -> is_Exception e = true ->
  let log :=
    if verbose self
    then [Print ("Primary model " +:+ method_name m +:+ " failed with error: "
                 +:+ str e +:+ ". Falling back to backup model.")]
    else [] in
  let tr2 := (tr ++ [Call Primary m a]) ++ log in
  wrapper str is_Exception type_error self m a tr =
  (fallback self m a tr2, tr2 ++ [Call Fallback m a]).
Proof.
  intros Hm Hp He. rewrite wrapper_unfold by exact Hm.
  unfold try_except, call, bind, _log_fallback, print, ret.
  rewrite Hp, He.
  destruct (verbose self); cbn; [reflexivity|].
  rewrite app_nil_r. reflexivity.
Qed.

(** [astream]: the exception the [except] clause receives is the one of
    the call of the primary, or the [TypeError] of the [await] when the
    call returned; after the fallback's call the second [await] raises
    too. *)
Lemma astream_falls_back self a tr (e : Exn) :
  match primary self m_astream a tr with
  | Returned v => type_error v
  | Raised e' => e'
  end = e ->
  is_Exception e = true ->
  let log :=
    if verbose self
    then [Print ("Primary model astream failed with error: "
                 +:+ str e +:+ ". Falling back to backup model.")]
    else [] in
  let tr2 := (tr ++ [Call Primary m_astream a]) ++ log in
  wrapper str is_Exception type_error self m_astream a tr =
  (match fallback self m_astream a tr2 with
   | Returned v2 => Raised (type_error v2)
   | Raised e2 => Raised e2
   end,
   tr2 ++ [Call Fallback m_astream a]).
Proof.
  intros Hp He. cbv zeta.
  unfold wrapper, astream, try_except, bind, call, await_async_generator,
    _log_fallback, print, ret.
  destruct (primary self m_astream a tr) as [v|e'];
    subst e; rewrite He; destruct (verbose self); cbn; rewrite ?app_nil_r;
    by destruct (fallback self m_astream a _).
Qed.

(** X29. Each of the five methods other than [astream] first calls the
    same method of the primary with the arguments it was given.  If that
    call returns, its value is returned and nothing else happens.  If it
    raises an exception [e], the line "Primary model <method> failed with
    error: <e>. Falling back to backup model." is printed when [verbose] is
    set, then the same method of the fallback is called once with the same
    arguments and its outcome is the outcome of the wrapper: its value when
    it returns, its own exception (not [e]) when it raises.  No other call
    is made. *)
Theorem fallback_contract self m a tr :
  m <> m_astream ->
  let tr1 := tr ++ [Call Primary m a] in
  (forall v, primary self m a tr = Returned v ->
     wrapper str is_Exception type_error self m a tr = (Returned v, tr1)) /\
  (forall e, primary self m a tr = Raised e -> is_Exception e = true ->
     let log :=
       if verbose self
       then [Print ("Primary model " +:+ method_name m +:+ " failed with error: "
                    +:+ str e +:+ ". Falling back to backup model.")]
       else [] in
     let tr2 := tr1 ++ log in
     wrapper str is_Exception type_error self m a tr =
       (fallback self m a tr2, tr2 ++ [Call Fallback m a]) /\
     (forall e2, fallback self m a tr2 = Raised e2 ->
        fst (wrapper str is_Exception type_error self m a tr) = Raised e2)).
Proof.
  intros Hm. cbv zeta. split.
  - intros v Hp. by apply wrapper_primary_returns.
  - intros e Hp He.
    pose proof (wrapper_primary_raises self m a tr e Hm Hp He) as Hw.
    cbv zeta in Hw. split; [exact Hw|].
    intros e2 Hf. rewrite Hw. cbn. exact Hf.
Qed.

(** C1, on the code.  [astream] does not keep the contract of the other
    methods.  When the call of the primary's [astream] returns, the
    wrapper awaits what it returned, an async generator; the [TypeError]
    of that [await] is caught as if the primary had failed: the line is
    printed, the fallback's [astream] is called, and the [await] on its
    result raises again.  The caller never receives the value of the
    primary, nor that of the fallback. *)
Theorem astream_never_returns self a tr v :
  primary self m_astream a tr = Returned v ->
  is_Exception (type_error v) = true ->
  let log :=
    if verbose self
    then [Print ("Primary model astream failed with error: "
                 +:+ str (type_error v) +:+ ". Falling back to backup model.")]
    else [] in
  let tr2 := (tr ++ [Call Primary m_astream a]) ++ log in
  wrapper str is_Exception type_error self m_astream a tr =
    (match fallback self m_astream a tr2 with
     | Returned v2 => Raised (type_error v2)
     | Raised e2 => Raised e2
     end,
     tr2 ++ [Call Fallback m_astream a]) /\
  forall v', fst (wrapper str is_Exception type_error self m_astream a tr)
             <> Returned v'.
Proof.
  intros Hp He. cbv zeta.
  pose proof (astream_falls_back self a tr (type_error v)) as Hw.
  rewrite Hp in Hw. specialize (Hw eq_refl He). cbv zeta in Hw.
  split; [exact Hw|]. intros v'. rewrite Hw. cbn [fst].
  by destruct (fallback self m_astream a _).
Qed.

End FallbackFacts.

Lemma fallback_contract_witness :
  llm_models.wrapper id (fun _ => true) not_awaitable both_down
    llm_models.m_invoke "hello" [] =
  (llm_models.Raised "quota",
   [llm_models.Call llm_models.Primary llm_models.m_invoke "hello";
    llm_models.Print
      "Primary model invoke failed with error: timeout. Falling back to backup model.";
    llm_models.Call llm_models.Fallback llm_models.m_invoke "hello"]).
Proof.
  exact (proj1 (proj2 (fallback_contract id (fun _ => true) not_awaitable both_down
                         llm_models.m_invoke "hello" [] ltac:(discriminate))
                 "timeout" eq_refl eq_refl)).
Defined.

Lemma astream_never_returns_witness :
  llm_models.wrapper id is_error not_awaitable both_up
    llm_models.m_astream "hello" [] =
  (llm_models.Raised "object async_generator can't be used in 'await' expression",
   [llm_models.Call llm_models.Primary llm_models.m_astream "hello";
    llm_models.Print
      "Primary model astream failed with error: object async_generator can't be used in 'await' expression. Falling back to backup model.";
    llm_models.Call llm_models.Fallback llm_models.m_astream "hello"]).
Proof.
  exact (proj1 (astream_never_returns id is_error not_awaitable both_up "hello" []
                  "a stream of the primary" eq_refl eq_refl)).
Defined.

(** ** Streams *)
Section StreamFacts.
Import llm_models.

Context {Args Chunk Exn : Type}.
Variable str : Exn -> string.
Variable is_Exception : Exn -> bool.
Variable type_error : iterator Chunk Exn -> Exn.

Implicit Types (self : @ModelWithFallback Args (iterator Chunk Exn) Exn).
Implicit Types (tr : list (@event Args)).

Lemma consume_fails_after (cs : list Chunk) (e : Exn) :
  consume (fails_after cs e) = (cs, Some e).
Proof.
  induction cs as [|c cs IH]; cbn; [reflexivity|].
  rewrite IH. reflexivity.
Qed.

(** X30. For [stream] the fallback is called exactly when the call that
    starts the primary's stream raises an [Exception].  When that call
    returns an iterator, the wrapper hands this very iterator to the caller
    and does nothing else: if the iterator raises [e] after it has yielded
    the chunks [cs], the caller receives [cs] and then [e]; nothing is
    printed and the fallback is not called. *)
Theorem stream_fallback_only_at_start self (a : Args) tr :
  (exists new,
     snd (wrapper str is_Exception type_error self m_stream a tr) = tr ++ new /\
     (In (Call Fallback m_stream a) new <->
      exists e, primary self m_stream a tr = Raised e /\ is_Exception e = true)) /\
  (forall cs e, primary self m_stream a tr = Returned (fails_after cs e) ->
     wrapper str is_Exception type_error self m_stream a tr =
       (Returned (fails_after cs e), tr ++ [Call Primary m_stream a]) /\
     consume (fails_after cs e) = (cs, Some e)).
Proof.
  assert (Hm : m_stream <> m_astream) by discriminate.
  split.
  - destruct (primary self m_stream a tr) as [it|e] eqn:Hp.
    + exists [Call Primary m_stream a]. split.
      * by rewrite (wrapper_primary_returns str is_Exception type_error
                      self m_stream a tr it Hm Hp).
      * split.
        -- intros [H|[]]. discriminate H.
        -- intros (e & He & _). discriminate He.
    + destruct (is_Exception e) eqn:He.
      * pose proof (wrapper_primary_raises str is_Exception type_error
                      self m_stream a tr e Hm Hp He) as Hw.
        cbv zeta in Hw. rewrite Hw. cbn [snd].
        eexists. split.
        -- rewrite <- !app_assoc. reflexivity.
        -- split; [intros _; eauto|]. intros _.
           apply in_or_app. right. apply in_or_app. right. by left.
      * exists [Call Primary m_stream a]. split.
        -- by rewrite (wrapper_not_caught str is_Exception type_error
                         self m_stream a tr e Hp He).
        -- split.
           ++ intros [H|[]]. discriminate H.
           ++ intros (e' & He' & Hex). congruence.
  - intros cs e Hp. split.
    + by apply wrapper_primary_returns.
    + apply consume_fails_after.
Qed.


End StreamFacts.

Lemma stream_fallback_only_at_start_witness :
  llm_models.wrapper id (fun _ => true) stream_not_awaitable breaks_midway
    llm_models.m_stream "q" [] =
    (llm_models.Returned (llm_models.fails_after ["The "; "dead"] "reset"),
     [llm_models.Call llm_models.Primary llm_models.m_stream "q"]) /\
  llm_models.consume (llm_models.fails_after ["The "; "dead"] "reset") =
    (["The "; "dead"], Some "reset").
Proof.
  exact (proj2 (stream_fallback_only_at_start id (fun _ => true) stream_not_awaitable
                  breaks_midway "q" [])
           ["The "; "dead"] "reset" eq_refl).
Defined.


(** What the caller of [astream] gets when both providers are up. *)
Example astream_with_healthy_providers :
  llm_models.wrapper id is_error stream_not_awaitable healthy_streams
    llm_models.m_astream "q" [] =
  (llm_models.Raised "object async_generator can't be used in 'await' expression",
   [llm_models.Call llm_models.Primary llm_models.m_astream "q";
    llm_models.Print
      "Primary model astream failed with error: object async_generator can't be used in 'await' expression. Falling back to backup model.";
    llm_models.Call llm_models.Fallback llm_models.m_astream "q"]).
Proof. reflexivity. Qed.

(** ** The query log *)
Section QueryLogFacts.
Import utils.

Lemma insert_one_stores (coll : collection) (document : gmap string field_value) :
  exists doc,
    snd (insert_one coll document) = coll ++ [doc] /\
    doc !! "_id" = Some (fst (insert_one coll document)) /\
    (forall k, k <> "_id" -> doc !! k = document !! k) /\
    (forall k v, document !! k = Some v -> doc !! k = Some v).
Proof.
  unfold insert_one. destruct (document !! "_id") as [id|] eqn:Hid; cbn.
  - exists document. repeat split; auto.
  - eexists. split; [reflexivity|]. split; [apply lookup_insert_eq|]. split.
    + intros k Hk. by apply lookup_insert_ne.
    + intros k v Hk. rewrite lookup_insert_ne; [exact Hk|]. congruence.
Qed.

(** C10. The record [process_and_store_query] inserts is the automatic
    timestamp overwritten by the caller's keyword arguments: every field
    the caller passes is stored with the caller's value, also a field
    named "timestamp", which then replaces the automatic one; without such
    a field the record carries the time of the call. *)
Theorem process_and_store_query_record (now : nat) (coll : collection)
    (kwargs : gmap string field_value) :
  exists doc,
    snd (process_and_store_query now coll kwargs) = coll ++ [doc] /\
    doc !! "_id" = Some (fst (process_and_store_query now coll kwargs)) /\
    (forall k, k <> "_id" ->
       doc !! k = (kwargs ∪ {[ "timestamp" := Datetime now ]}) !! k) /\
    (forall k v, kwargs !! k = Some v -> doc !! k = Some v) /\
    (forall v, kwargs !! "timestamp" = Some v -> doc !! "timestamp" = Some v) /\
    (kwargs !! "timestamp" = None -> doc !! "timestamp" = Some (Datetime now)).
Proof.
  unfold process_and_store_query, update.
  destruct (insert_one_stores coll (kwargs ∪ {[ "timestamp" := Datetime now ]}))
    as (doc & Hcoll & Hid & Hother & Hkeep).
  exists doc. split; [exact Hcoll|]. split; [exact Hid|]. split; [exact Hother|].
  split; [|split].
  - intros k v Hk. apply Hkeep. by apply lookup_union_Some_l.
  - intros v Hk. apply Hkeep. by apply lookup_union_Some_l.
  - intros Hk. apply Hkeep. rewrite lookup_union_r by exact Hk.
    apply lookup_singleton_eq.
Qed.

End QueryLogFacts.

Lemma process_and_store_query_record_witness :
  exists doc,
    snd (utils.process_and_store_query 1700 [] backdated) = [] ++ [doc] /\
    doc !! "timestamp" = Some (utils.Text "yesterday").
Proof.
  destruct (process_and_store_query_record 1700 [] backdated)
    as (doc & Hcoll & _ & _ & _ & Hts & _).
  exists doc. split; [exact Hcoll|].
  apply Hts. reflexivity.
Defined.

(** ** Strings *)
Section StringFacts.

Lemma append_assoc (a b c : string) : (a +:+ b) +:+ c = a +:+ (b +:+ c).
Proof.
  induction a as [|x a IH]; [reflexivity|].
  change (String x ((a +:+ b) +:+ c) = String x (a +:+ (b +:+ c))).
  by rewrite IH.
Qed.

Lemma append_empty_r (a : string) : a +:+ "" = a.
Proof.
  induction a as [|x a IH]; [reflexivity|].
  change (String x (a +:+ "") = String x a).
  by rewrite IH.
Qed.

End StringFacts.

(** ** The recent-history window *)
Section WindowFacts.
Import app.

Lemma recent_history_drop (h : list message) :
  recent_history h = drop (length h - 4) h.
Proof.
  unfold recent_history. destruct (4 <? length h)%nat eqn:Hlt; [reflexivity|].
  apply Nat.ltb_ge in Hlt.
  replace (length h - 4)%nat with 0%nat by lia. reflexivity.
Qed.

Lemma history_line_label (i : nat) (msg : message) :
  history_line i msg =
  (if Nat.even i then "Human: " else "AI: ") +:+ content msg.
Proof.
  unfold history_line.
  destruct (Nat.even i) eqn:He.
  - apply Nat.even_spec in He. destruct He as [k ->].
    replace ((2 * k) mod 2)%nat with 0%nat; [reflexivity|].
    symmetry. rewrite Nat.mul_comm. apply Nat.Div0.mod_mul.
  - assert (Ho : Nat.odd i = true) by (rewrite <- Nat.negb_even, He; reflexivity).
    apply Nat.odd_spec in Ho. destruct Ho as [k ->].
    replace ((2 * k + 1) mod 2)%nat with 1%nat; [reflexivity|].
    symmetry. rewrite Nat.add_comm, Nat.mul_comm. rewrite Nat.Div0.mod_add. reflexivity.
Qed.

Lemma imap_history_line_content (w w' : list message) :
  content <$> w = content <$> w' ->
  imap history_line w = imap history_line w'.
Proof.
  intros Hc. apply list_eq. intros i. rewrite !list_lookup_imap.
  assert (Hi : (content <$> w) !! i = (content <$> w') !! i) by (by rewrite Hc).
  rewrite !list_lookup_fmap in Hi.
  destruct (w !! i) as [m|], (w' !! i) as [m'|]; cbn in *; try congruence.
  unfold history_line. congruence.
Qed.

(** C6. The window is the last four messages of the history, or the whole
    history when it has at most four, in the order of the history.  Its
    text is the lines of the window joined by newlines; the line at an even
    index of the window is "Human: " and the content, the line at an odd
    index "AI: " and the content, whatever the class of the message: two
    histories with the same contents give the same text. *)
Theorem recent_window_last_four (h : list message) :
  let w := recent_history h in
  w = drop (length h - 4) h /\
  length w = Nat.min 4 (length h) /\
  (forall i msg, w !! i = Some msg ->
     h !! (length h - length w + i)%nat = Some msg) /\
  (exists lines, history_text w = join nl lines /\
     length lines = length w /\
     forall i msg, w !! i = Some msg ->
       lines !! i =
       Some ((if Nat.even i then "Human: " else "AI: ") +:+ content msg)) /\
  (forall h', content <$> h = content <$> h' ->
     history_text (recent_history h') = history_text w).
Proof.
  cbv zeta. split; [apply recent_history_drop|].
  assert (Hlen : length (recent_history h) = Nat.min 4 (length h)).
  { rewrite recent_history_drop, length_drop. lia. }
  split; [exact Hlen|]. split; [|split].
  - intros i msg Hi. rewrite recent_history_drop in Hi.
    rewrite lookup_drop in Hi. rewrite Hlen.
    replace (length h - Nat.min 4 (length h))%nat with (length h - 4)%nat by lia.
    exact Hi.
  - exists (imap history_line (recent_history h)).
    split; [reflexivity|]. split; [apply length_imap|].
    intros i msg Hi. rewrite list_lookup_imap, Hi. cbn.
    by rewrite history_line_label.
  - intros h' Hc. unfold history_text. f_equal.
    apply imap_history_line_content.
    rewrite !recent_history_drop, !fmap_drop.
    assert (Hl : length h = length h').
    { rewrite <- (length_fmap content h), Hc. apply length_fmap. }
    by rewrite Hc, Hl.
Qed.

(** Six messages: the last four, in order; two messages: both. *)
Example recent_history_six :
  recent_history
    [AIMessage "g"; HumanMessage "q1"; AIMessage "a1";
     HumanMessage "q2"; AIMessage "a2"; HumanMessage "q3"] =
  [AIMessage "a1"; HumanMessage "q2"; AIMessage "a2"; HumanMessage "q3"].
Proof. reflexivity. Qed.

Example recent_history_two :
  recent_history [AIMessage "g"; HumanMessage "q1"] =
  [AIMessage "g"; HumanMessage "q1"].
Proof. reflexivity. Qed.

(** The greeting of the assistant, first in a short history, is labelled
    "Human". *)
Example history_text_short :
  history_text (recent_history [AIMessage "Hello!"; HumanMessage "Hi"]) =
  "Human: Hello!" +:+ nl +:+ "AI: Hi".
Proof. reflexivity. Qed.

End WindowFacts.

(** ** The exported transcript *)
Section ExportFacts.
Import streamlit sidebar.

Variable now : string -> string.

Lemma count_char_app (c : ascii) (a b : string) :
  count_char c (a +:+ b) = (count_char c a + count_char c b)%nat.
Proof.
  induction a as [|x a IH]; [reflexivity|].
  change (count_char c (String x (a +:+ b)) =
          (count_char c (String x a) + count_char c b)%nat).
  cbn. rewrite IH. lia.
Qed.

Lemma count_char_digits (u : Decimal.uint) :
  count_char "=" (NilEmpty.string_of_uint u) = 0%nat.
Proof. induction u; cbn; auto. Qed.

Lemma count_char_str_nat (n : nat) : count_char "=" (str_nat n) = 0%nat.
Proof.
  unfold str_nat. apply count_char_digits.
Qed.

Lemma add_message_block (chat_content : string) (m : message) :
  add_message chat_content m = chat_content +:+ transcript_block m.
Proof.
  destruct m as [c|c]; unfold add_message, transcript_block.
  - replace (contains "AI" (type_str (HumanMessage c))
             || contains "Assistant" (type_str (HumanMessage c))) with false
      by (vm_compute; reflexivity).
    by rewrite !append_assoc.
  - replace (contains "AI" (type_str (AIMessage c))
             || contains "Assistant" (type_str (AIMessage c))) with true
      by (vm_compute; reflexivity).
    by rewrite !append_assoc.
Qed.

Lemma fold_add_message (h : list message) (chat_content : string) :
  fold_left add_message h chat_content =
  chat_content +:+ concat_all (transcript_block <$> h).
Proof.
  revert chat_content. induction h as [|m h IH]; intros acc; cbn.
  - by rewrite append_empty_r.
  - rewrite IH, add_message_block. apply append_assoc.
Qed.

Lemma count_char_blocks (h : list message) :
  count_char "=" (concat_all (transcript_block <$> h)) =
  list_sum (count_char "=" ∘ content <$> h).
Proof.
  induction h as [|m h IH]; [reflexivity|].
  cbn [fmap list_fmap concat_all].
  rewrite count_char_app, IH.
  destruct m as [c|c]; unfold transcript_block;
    rewrite !count_char_app; unfold nl, list_sum, compose; cbn; lia.
Qed.

(** C7. Without a history, or with an empty one, the export is "No
    conversation history to save.".  Otherwise it is the title line, the
    line of the save time, the line of the number of messages, one line of
    fifty "=" and an empty line, followed by one block per message in
    order: the label of the block depends on the class of the message
    alone, and the block ends with a line of thirty "-".  The fifty "=" of
    the header are the only ones the export adds to those of the time
    stamp and of the contents. *)
Theorem export_as_text (ss : session_state) :
  (chat_history ss = None \/ chat_history ss = Some [] ->
     save_chat_history now ss = "No conversation history to save.") /\
  (forall h, chat_history ss = Some h -> h <> [] ->
     save_chat_history now ss =
       "ISOM 550 DDA Virtual TA - Chat History" +:+ nl +:+
       "Saved on: " +:+ now "%Y-%m-%d %H:%M:%S" +:+ nl +:+
       "Total Messages: " +:+ str_nat (length h) +:+ nl +:+
       "==================================================" +:+ nl +:+ nl +:+
       concat_all (transcript_block <$> h) /\
     count_char "=" (save_chat_history now ss) =
       (50 + count_char "=" (now "%Y-%m-%d %H:%M:%S")
        + list_sum (count_char "=" ∘ content <$> h))%nat) /\
  String.length "==================================================" = 50%nat /\
  String.length "------------------------------" = 30%nat.
Proof.
  split; [|split; [|split; reflexivity]].
  - intros [H|H]; unfold save_chat_history; rewrite H; reflexivity.
  - intros h Hh Hne.
    assert (Hs : save_chat_history now ss =
       "ISOM 550 DDA Virtual TA - Chat History" +:+ nl +:+
       "Saved on: " +:+ now "%Y-%m-%d %H:%M:%S" +:+ nl +:+
       "Total Messages: " +:+ str_nat (length h) +:+ nl +:+
       "==================================================" +:+ nl +:+ nl +:+
       concat_all (transcript_block <$> h)).
    { unfold save_chat_history. rewrite Hh.
      destruct h as [|m h]; [congruence|].
      cbv zeta. rewrite fold_add_message.
      change (repeat_char "=" 50)
        with "==================================================".
      by rewrite !append_assoc. }
    split; [exact Hs|].
    rewrite Hs, !count_char_app, count_char_str_nat, count_char_blocks.
    unfold nl. cbn. lia.
Qed.

End ExportFacts.

Lemma export_as_text_witness :
  sidebar.save_chat_history (fun _ => "2025-03-01 09:30:00")
    (streamlit.set_chat_history
       (Some [AIMessage "Hello!"; HumanMessage "When is A2 due?"])
       streamlit.empty_session) =
  "ISOM 550 DDA Virtual TA - Chat History" +:+ nl +:+
  "Saved on: 2025-03-01 09:30:00" +:+ nl +:+
  "Total Messages: 2" +:+ nl +:+
  "==================================================" +:+ nl +:+ nl +:+
  "🤖 AI Assistant:" +:+ nl +:+ "Hello!" +:+ nl +:+ nl +:+
  "------------------------------" +:+ nl +:+ nl +:+
  "👤 Student:" +:+ nl +:+ "When is A2 due?" +:+ nl +:+ nl +:+
  "------------------------------" +:+ nl +:+ nl.
Proof.
  refine (proj1 (proj1 (proj2 (export_as_text (fun _ => "2025-03-01 09:30:00")
                                 (streamlit.set_chat_history
                                    (Some [AIMessage "Hello!"; HumanMessage "When is A2 due?"])
                                    streamlit.empty_session)))
                   [AIMessage "Hello!"; HumanMessage "When is A2 due?"] eq_refl _)).
  discriminate.
Defined.

(** ** One run of the chat script *)
Section ChatFacts.
Import streamlit app.

Variable now : string -> string.
Context {Db : Type}.
Variable db : option Db.
Variable rag_chain : option (string -> string -> exception + string).

Lemma for_each_display (h : list message) (p : page) :
  for_each h display p =
  (Ok tt, {| state := state p; screen := screen p ++ (bubble <$> h) |}).
Proof.
  revert p. induction h as [|m h IH]; intros [ss sc]; cbn.
  - unfold ret. by rewrite app_nil_r.
  - unfold bind. destruct m; cbn; rewrite IH; cbn; by rewrite <- app_assoc.
Qed.

Lemma bind_for_each {A} (h : list message) (k : unit -> script A) (p : page) :
  bind (for_each h display) k p =
  k tt {| state := state p; screen := screen p ++ (bubble <$> h) |}.
Proof. unfold bind. by rewrite for_each_display. Qed.

Ltac run_script :=
  repeat (cbn -[for_each sidebar.save_chat_history str_nat String.append
                history_text recent_history];
          rewrite ?bind_for_each).

(** The history after one interaction. *)
Lemma step_history (ss : session_state) (i : interaction) :
  chat_history (step now db rag_chain ss i) =
  match i with
  | ClickClear => Some []
  | Open => Some (default [AIMessage greeting] (chat_history ss))
  | Submit q =>
      let h := default [AIMessage greeting] (chat_history ss) in
      Some (h ++ turn db rag_chain q h)
  end.
Proof.
  destruct ss as [[[|m [|m' h]]|] pw pc], i as [| |[|c q]];
    unfold step, interact, main, respond.
  all: run_script.
  all: rewrite ?app_nil_r; try reflexivity.
  all: destruct db as [d|], rag_chain as [chain|]; run_script.
  all: rewrite ?app_nil_r; try reflexivity.
  all: match goal with
       | |- context [match ?x with inl _ => _ | inr _ => _ end] =>
           destruct x as [e|response]
       end; run_script.
  all: rewrite ?app_nil_r; reflexivity.
Qed.

End ChatFacts.

(** ** The chat script without a knowledge base, and the greeting *)
Section ChatTurnFacts.
Import streamlit app.

Variable now : string -> string.
Context {Db : Type}.
Variable db : option Db.
Variable rag_chain : option (string -> string -> exception + string).

(** A run in which "Clear" was not clicked reaches the chat input with the
    history initialised and nothing else changed. *)
Lemma main_reaches_input (ss : session_state) (c : ascii) (q : string) :
  exists shown,
    main now db rag_chain false (Some (String c q)) {| state := ss; screen := [] |} =
    respond db rag_chain (String c q)
      {| state := match chat_history ss with
                  | Some _ => ss
                  | None => set_chat_history (Some [AIMessage greeting]) ss
                  end;
         screen := shown |}.
Proof.
  destruct ss as [[[|m [|m' h]]|] pw pc]; unfold main.
  all: repeat (cbn -[for_each sidebar.save_chat_history str_nat String.append respond];
               rewrite ?bind_for_each).
  all: eexists; reflexivity.
Qed.

Lemma respond_unavailable (q : string) (p : page) :
  db = None \/ rag_chain = None ->
  respond db rag_chain q p =
  (Ok tt,
   {| state := state p;
      screen := screen p ++
        [ChatMessage "Human" q;
         ErrorBox "Knowledge base not available. Please contact your instructor."] |}).
Proof.
  intros H. unfold respond.
  assert (Hm : match db, rag_chain with
               | Some _, Some _ => False
               | _, _ => True
               end).
  { destruct H as [-> | ->]; [exact I|]. by destruct db. }
  destruct db, rag_chain; try contradiction;
    unfold bind, show; cbn; by rewrite <- app_assoc.
Qed.

(** C5. When the database or the chain is missing and the user submits a
    query, the run shows the query and then the error "Knowledge base not
    available. Please contact your instructor.", and ends there: the
    session is the one the run started from (with the greeting, had the
    history not been initialised yet); neither the query nor an answer is
    appended. *)
Theorem unavailable_knowledge_base (ss : session_state) (q : string) :
  db = None \/ rag_chain = None ->
  q <> "" ->
  (exists shown,
     interact now db rag_chain (Submit q) ss =
     (Ok tt,
      {| state := match chat_history ss with
                  | Some _ => ss
                  | None => set_chat_history (Some [AIMessage greeting]) ss
                  end;
         screen := shown ++
           [ChatMessage "Human" q;
            ErrorBox "Knowledge base not available. Please contact your instructor."] |})) /\
  (forall h, chat_history ss = Some h ->
     step now db rag_chain ss (Submit q) = ss).
Proof.
  intros Hdown Hq. destruct q as [|c q]; [congruence|].
  destruct (main_reaches_input ss c q) as [shown Hmain].
  assert (Hi : interact now db rag_chain (Submit (String c q)) ss =
     (Ok tt,
      {| state := match chat_history ss with
                  | Some _ => ss
                  | None => set_chat_history (Some [AIMessage greeting]) ss
                  end;
         screen := shown ++
           [ChatMessage "Human" (String c q);
            ErrorBox "Knowledge base not available. Please contact your instructor."] |})).
  { unfold interact. rewrite Hmain, respond_unavailable by exact Hdown. reflexivity. }
  split; [by exists shown|].
  intros h Hh. unfold step. rewrite Hi. cbn. by rewrite Hh.
Qed.

Lemma begins_with_greeting_app (ss : session_state) (h ext : list message) :
  chat_history ss = Some (h ++ ext) ->
  (exists rest, h = AIMessage greeting :: rest) ->
  begins_with_greeting ss.
Proof. intros Hss [rest ->]. exists (rest ++ ext). exact Hss. Qed.

(** Without a click on "Clear", an interaction gives a history that begins
    with the greeting, from a session without a history and from one whose
    history begins with the greeting. *)
Lemma step_keeps_greeting (ss : session_state) (i : interaction) :
  i <> ClickClear ->
  chat_history ss = None \/ begins_with_greeting ss ->
  begins_with_greeting (step now db rag_chain ss i).
Proof.
  intros Hi Hss.
  assert (Hd : exists rest,
    default [AIMessage greeting] (chat_history ss) = AIMessage greeting :: rest).
  { destruct Hss as [-> | [rest ->]]; cbn; eauto. }
  pose proof (step_history now db rag_chain ss i) as Hs.
  destruct i as [| |q]; [|congruence|].
  - destruct Hd as [rest Hd]. exists rest. by rewrite Hs, Hd.
  - cbv zeta in Hs. by apply (begins_with_greeting_app _ _ _ Hs).
Qed.

Lemma cleared_not_greeting (ss : session_state) :
  cleared ss -> ~ begins_with_greeting ss.
Proof.
  intros [H | (q & rest & H)] [rest' H']; congruence.
Qed.

Lemma step_keeps_cleared (ss : session_state) (i : interaction) :
  cleared ss -> cleared (step now db rag_chain ss i).
Proof.
  intros Hc. pose proof (step_history now db rag_chain ss i) as Hs.
  destruct i as [| |q].
  - destruct Hc as [H | (q' & rest & H)]; rewrite H in Hs; cbn in Hs.
    + by left.
    + right. eauto.
  - by left.
  - cbv zeta in Hs.
    destruct Hc as [H | (q' & rest & H)]; rewrite H in Hs; cbn in Hs.
    + unfold turn in Hs.
      destruct q as [|c q]; [by left|].
      destruct db; [|by left]. destruct rag_chain as [chain|]; [|by left].
      destruct (chain _ _); [by left|]. right. eauto.
    + right. eauto.
Qed.

Lemma fold_step_cleared (inputs : list interaction) (ss : session_state) :
  cleared ss -> cleared (fold_left (step now db rag_chain) inputs ss).
Proof.
  revert ss. induction inputs as [|i inputs IH]; intros ss Hc; cbn; [exact Hc|].
  apply IH. by apply step_keeps_cleared.
Qed.

Lemma fold_step_after_clear (inputs : list interaction) (ss : session_state) :
  In ClickClear inputs -> cleared (fold_left (step now db rag_chain) inputs ss).
Proof.
  revert ss. induction inputs as [|i inputs IH]; intros ss Hin; [destruct Hin|].
  cbn. destruct Hin as [-> | Hin].
  - apply fold_step_cleared. left. apply (step_history now db rag_chain ss ClickClear).
  - by apply IH.
Qed.

Lemma fold_step_greeting (inputs : list interaction) (ss : session_state) :
  ~ In ClickClear inputs -> begins_with_greeting ss ->
  begins_with_greeting (fold_left (step now db rag_chain) inputs ss).
Proof.
  revert ss. induction inputs as [|i inputs IH]; intros ss Hin Hg; cbn; [exact Hg|].
  apply IH.
  - intros H. apply Hin. by right.
  - apply step_keeps_greeting; [|by right].
    intros ->. apply Hin. by left.
Qed.

(** C2, as the code has it.  A session begins with the greeting exactly as
    long as "Clear" has not been clicked: after any interactions without a
    click on "Clear" the history begins with the greeting; a click on
    "Clear" leaves the key in place with an empty list, which the next run
    does not initialise again, and from then on the history is empty or
    begins with a query of the user. *)
Theorem greeting_until_clear (inputs : list interaction) :
  inputs <> [] ->
  (begins_with_greeting (session now db rag_chain inputs) <->
   ~ In ClickClear inputs) /\
  (In ClickClear inputs -> cleared (session now db rag_chain inputs)) /\
  (forall ss, chat_history (step now db rag_chain ss ClickClear) = Some []).
Proof.
  intros Hne. split; [|split].
  - unfold session. split.
    + intros Hg Hin. apply (cleared_not_greeting _ (fold_step_after_clear _ _ Hin) Hg).
    + intros Hin. destruct inputs as [|i inputs]; [congruence|]. cbn.
      apply fold_step_greeting.
      * intros H. apply Hin. by right.
      * apply step_keeps_greeting; [|by left].
        intros ->. apply Hin. by left.
  - apply fold_step_after_clear.
  - intros ss. apply (step_history now db rag_chain ss ClickClear).
Qed.

End ChatTurnFacts.

(** C2, counterexample.  The page is opened and "Clear" is clicked: the
    history is the empty list, which does not begin with the greeting. *)
Lemma greeting_lost_after_clear :
  streamlit.chat_history
    (app.session sample_clock (@None unit) sample_chain [app.Open; app.ClickClear])
    = Some [] /\
  ~ begins_with_greeting
      (app.session sample_clock (@None unit) sample_chain [app.Open; app.ClickClear]).
Proof.
  assert (H : streamlit.chat_history
    (app.session sample_clock (@None unit) sample_chain [app.Open; app.ClickClear])
    = Some []) by (vm_compute; reflexivity).
  split; [exact H|].
  intros [rest Hg]. rewrite H in Hg. discriminate Hg.
Qed.

(** The greeting does not come back with the next answer either. *)
Example greeting_lost_after_clear_and_turn :
  streamlit.chat_history
    (app.session sample_clock (Some tt) sample_chain
       [app.Open; app.ClickClear; app.Submit "When is A2 due?"])
  = Some [HumanMessage "When is A2 due?"; AIMessage "It is due on March 15."].
Proof. vm_compute. reflexivity. Qed.

Lemma greeting_until_clear_witness :
  begins_with_greeting
    (app.session sample_clock (Some tt) sample_chain
       [app.Open; app.Submit "When is A2 due?"]).
Proof.
  apply (proj1 (greeting_until_clear sample_clock (Some tt) sample_chain
                  [app.Open; app.Submit "When is A2 due?"] ltac:(discriminate))).
  intros [H|[H|[]]]; discriminate H.
Defined.

Lemma unavailable_knowledge_base_witness :
  app.step sample_clock (@None unit) None fresh_chat (app.Submit "When is A2 due?")
  = fresh_chat.
Proof.
  apply (proj2 (unavailable_knowledge_base sample_clock (@None unit) None fresh_chat
                  "When is A2 due?" (or_introl eq_refl) ltac:(discriminate))
           [AIMessage app.greeting]).
  reflexivity.
Defined.

Lemma recent_window_last_four_witness :
  [AIMessage "g"; HumanMessage "q1"; AIMessage "a1";
   HumanMessage "q2"; AIMessage "a2"; HumanMessage "q3"] !! 2%nat
  = Some (AIMessage "a1").
Proof.
  apply (proj1 (proj2 (proj2 (recent_window_last_four
           [AIMessage "g"; HumanMessage "q1"; AIMessage "a1";
            HumanMessage "q2"; AIMessage "a2"; HumanMessage "q3"])))
           0%nat (AIMessage "a1")).
  reflexivity.
Defined.

(** ** The password gate *)
Section GateFacts.
Import streamlit admin.

Variable admin_password : string.

(** C3. The operator submits [entered] in any session.  If it differs from
    the configured password, the flag is [False] afterwards, the run shows
    the login form with the error and stops there: nothing of the
    protected page is rendered.  If it equals the configured password, the
    flag is [True], the key "password" is gone from the session, and the
    run renders the protected page. *)
Theorem password_gate (ss : session_state) (entered : string) :
  (entered <> admin_password ->
     submit_password admin_password entered {| state := ss; screen := [] |} =
     (Stopped,
      {| state := set_password_correct (Some false) (set_password (Some entered) ss);
         screen :=
           [Stdout "";
            Markdown "# 🔐 Authentication Required";
            Markdown "**Knowledge Base Manager - Admin Access Only**";
            Markdown "---";
            TextInput "Enter admin password:" "password";
            ErrorBox "❌ Incorrect password. Please contact your instructor.";
            Markdown "---";
            InfoBox "💡 **For Students**: Return to the main Virtual TA page to ask questions about course content."] |})) /\
  (entered = admin_password ->
     submit_password admin_password entered {| state := ss; screen := [] |} =
     (Ok tt,
      {| state := set_password None (set_password_correct (Some true) ss);
         screen :=
           [Markdown "### 🔐 Admin Session";
            SuccessBox "✅ Authenticated as admin";
            Button "🚪 Logout" false;
            Markdown "---";
            Title "📚 Knowledge Base Manager";
            Markdown "*Admin Interface - Manage course materials and test the knowledge base*"] |}) /\
     password (state (snd (submit_password admin_password entered
                             {| state := ss; screen := [] |}))) = None /\
     password_correct (state (snd (submit_password admin_password entered
                             {| state := ss; screen := [] |}))) = Some true).
Proof.
  split.
  - intros Hne. apply String.eqb_neq in Hne.
    unfold submit_password, password_entered, page_script, check_password,
      text_input_password, main, bind, get, modify, show, ret, stop.
    cbn. rewrite Hne. cbn. reflexivity.
  - intros ->.
    assert (H : submit_password admin_password admin_password
                  {| state := ss; screen := [] |} =
     (Ok tt,
      {| state := set_password None (set_password_correct (Some true) ss);
         screen :=
           [Markdown "### 🔐 Admin Session";
            SuccessBox "✅ Authenticated as admin";
            Button "🚪 Logout" false;
            Markdown "---";
            Title "📚 Knowledge Base Manager";
            Markdown "*Admin Interface - Manage course materials and test the knowledge base*"] |})).
    { unfold submit_password, password_entered, page_script, check_password,
        text_input_password, main, bind, get, modify, show, ret, stop.
      cbn. rewrite String.eqb_refl. cbn. reflexivity. }
    rewrite H. auto.
Qed.

End GateFacts.

Lemma password_gate_witness :
  streamlit.password_correct
    (streamlit.state
       (snd (admin.submit_password "s3cret" "s3cret"
               {| streamlit.state := streamlit.empty_session;
                  streamlit.screen := [] |}))) = Some true.
Proof.
  exact (proj2 (proj2 (proj2 (password_gate "s3cret" streamlit.empty_session "s3cret")
                         eq_refl))).
Defined.

(** A wrong password, tried on the same session. *)
Example password_gate_wrong :
  fst (admin.submit_password "s3cret" "S3cret"
         {| streamlit.state := streamlit.empty_session; streamlit.screen := [] |})
  = streamlit.Stopped.
Proof. reflexivity. Qed.

(** ** The temporary file of an upload *)
Section IngestionFacts.
Import admin.

Context {Document Vector : Type}.
Variable parse : loader_class -> string -> exception + list Document.
Variable mkstemp : filesystem Document Vector -> string.

Lemma get_file_loader_path (path : string) :
  file_path (get_file_loader path) = path.
Proof.
  unfold get_file_loader.
  repeat match goal with |- context [if ?b then _ else _] => destruct b end;
    reflexivity.
Qed.

(** What [process_file] does, step by step: the write, the loader and the
    splitter, the unlink. *)
Lemma process_file_unfold (file : UploadedFile)
    (text_splitter : list Document -> exception + list Document)
    (fs : filesystem Document Vector) :
  let tmp_file_path := mkstemp fs +:+ os.suffix (file_name file) in
  process_file parse mkstemp file text_splitter fs =
  (match parse (class (get_file_loader tmp_file_path)) (getvalue file) with
   | inl e => inl e
   | inr documents => text_splitter documents
   end,
   {| dirs := dirs fs;
      files := delete tmp_file_path
                 (<[ tmp_file_path := Bytes (getvalue file) ]> (files fs)) |}).
Proof.
  cbv zeta. unfold process_file, fs_bind, named_temporary_file, try_finally.
  set (tmp := mkstemp fs +:+ os.suffix (file_name file)).
  set (fs1 := {| dirs := dirs fs; files := <[ tmp := Bytes (getvalue file) ]> (files fs) |}).
  assert (Hl : files fs1 !! tmp = Some (Bytes (getvalue file)))
    by apply lookup_insert_eq.
  unfold load. rewrite get_file_loader_path, Hl.
  unfold fs_lift, fs_ret, unlink.
  destruct (parse _ (getvalue file)) as [e|documents].
  - rewrite Hl. reflexivity.
  - destruct (text_splitter documents) as [e|chunks]; rewrite Hl; reflexivity.
Qed.

(** C9. [process_file] writes the upload to a file whose name ends with
    the suffix of the upload's name, lets the loader for that suffix read it
    and the splitter cut the documents, and unlinks the file, whether the
    two returned or one of them raised: in both cases the file is absent
    afterwards and the rest of the disk is as it was. *)
Theorem process_file_removes_temporary_file (file : UploadedFile)
    (text_splitter : list Document -> exception + list Document)
    (fs : filesystem Document Vector) :
  let tmp_file_path := mkstemp fs +:+ os.suffix (file_name file) in
  let run := process_file parse mkstemp file text_splitter fs in
  fst run =
    match parse (class (get_file_loader tmp_file_path)) (getvalue file) with
    | inl e => inl e
    | inr documents => text_splitter documents
    end /\
  files (snd run) !! tmp_file_path = None /\
  (forall path, path <> tmp_file_path ->
     files (snd run) !! path = files fs !! path) /\
  dirs (snd run) = dirs fs.
Proof.
  cbv zeta. pose proof (process_file_unfold file text_splitter fs) as H.
  cbv zeta in H. rewrite H. cbn [fst snd files dirs].
  split; [reflexivity|]. split; [apply lookup_delete_eq|]. split; [|reflexivity].
  intros path Hp. rewrite lookup_delete_ne, lookup_insert_ne by congruence.
  reflexivity.
Qed.

End IngestionFacts.

Lemma process_file_removes_temporary_file_witness :
  admin.files
    (snd (admin.process_file sample_parse sample_mkstemp sample_upload
            sample_splitter empty_disk)) !! "/tmp/other.txt"
  = admin.files empty_disk !! "/tmp/other.txt".
Proof.
  apply (proj1 (proj2 (proj2 (process_file_removes_temporary_file
           sample_parse sample_mkstemp sample_upload sample_splitter empty_disk)))).
  discriminate.
Defined.

(** The upload "syllabus.TXT" goes through the text loader. *)
Example process_file_sample :
  fst (admin.process_file sample_parse sample_mkstemp sample_upload
         sample_splitter empty_disk) = inr ["Week 1: regression"] /\
  admin.class (admin.get_file_loader "/tmp/tmpk3v9x1.TXT") = admin.TextLoader.
Proof. split; vm_compute; reflexivity. Qed.

(** ** Updating the index *)
Section IndexFacts.
Import admin.
Local Open Scope fs_scope.

Context {Document Vector : Type}.
Variable embed : Document -> Vector.

Implicit Types (fs : filesystem Document Vector) (chunks : list Document).

Lemma path_join_prefix (a : string) :
  exists prefix, forall b, os.path_join a b = prefix +:+ b.
Proof.
  unfold os.path_join. destruct (String.eqb a "").
  - by exists "".
  - destruct (os.endswith a "/").
    + by exists a.
    + exists (a +:+ "/"). intros b. by rewrite append_assoc.
Qed.

Lemma index_files_differ (db_path : string) :
  os.path_join db_path "index.faiss" <> os.path_join db_path "index.pkl".
Proof.
  destruct (path_join_prefix db_path) as [prefix Hp]. rewrite !Hp.
  intros H. apply (inj (String.app prefix)) in H. discriminate H.
Qed.

(** On a path without an index the function builds one from the chunks and
    writes it. *)
Lemma update_or_create_fresh chunks (db_path : string) fs :
  db_path <> "" ->
  files fs !! os.path_join db_path "index.faiss" = None ->
  os.path_join db_path "index.faiss" ∉ dirs fs ->
  exists fs',
    update_or_create_faiss_index embed chunks db_path fs =
      (inr (from_documents embed chunks), fs') /\
    files fs' !! os.path_join db_path "index.faiss" =
      Some (IndexFaiss (embed <$> chunks)) /\
    files fs' !! os.path_join db_path "index.pkl" = Some (IndexPkl chunks) /\
    db_path ∈ dirs fs'.
Proof.
  intros Hpath Hfile Hdir. apply String.eqb_neq in Hpath.
  unfold update_or_create_faiss_index, fs_bind, path_exists, makedirs.
  rewrite Hfile. rewrite bool_decide_eq_false_2 by (intros [x Hx]; discriminate Hx).
  rewrite bool_decide_eq_false_2 by exact Hdir.
  cbn. rewrite Hpath.
  cbn. eexists. split; [reflexivity|]. cbn.
  split; [|split].
  - rewrite lookup_insert_ne by (apply not_eq_sym, index_files_differ).
    apply lookup_insert_eq.
  - apply lookup_insert_eq.
  - set_solver.
Qed.

(** On a path with an index the function raises before it appends or
    writes anything: its [load_local] comes without the permission to
    deserialize. *)
Lemma update_or_create_existing chunks (db_path : string) fs :
  is_Some (files fs !! os.path_join db_path "index.faiss") ->
  update_or_create_faiss_index embed chunks db_path fs =
  (inl (ValueError "allow_dangerous_deserialization must be True to load a pickled index"),
   fs).
Proof.
  intros Hfile.
  unfold update_or_create_faiss_index, fs_bind, path_exists.
  rewrite bool_decide_eq_true_2 by exact Hfile. reflexivity.
Qed.

(** The write sequence of the specification on a path without an index,
    and on a path with one. *)
Lemma update_or_create_spec_fresh chunks (db_path : string) fs :
  files fs !! os.path_join db_path "index.faiss" = None ->
  os.path_join db_path "index.faiss" ∉ dirs fs ->
  exists fs',
    update_or_create_spec embed chunks db_path fs =
      (inr (from_documents embed chunks), fs') /\
    files fs' !! os.path_join db_path "index.faiss" =
      Some (IndexFaiss (embed <$> chunks)) /\
    files fs' !! os.path_join db_path "index.pkl" = Some (IndexPkl chunks).
Proof.
  intros Hfile Hdir.
  unfold update_or_create_spec, fs_bind, path_exists.
  rewrite Hfile. rewrite bool_decide_eq_false_2 by (intros [x Hx]; discriminate Hx).
  rewrite bool_decide_eq_false_2 by exact Hdir.
  cbn. eexists. split; [reflexivity|]. cbn. split.
  - rewrite lookup_insert_ne by (apply not_eq_sym, index_files_differ).
    apply lookup_insert_eq.
  - apply lookup_insert_eq.
Qed.

Lemma update_or_create_spec_existing chunks (db_path : string) fs
    (vectors : list Vector) (docs : list Document) :
  files fs !! os.path_join db_path "index.faiss" = Some (IndexFaiss vectors) ->
  files fs !! os.path_join db_path "index.pkl" = Some (IndexPkl docs) ->
  exists fs',
    update_or_create_spec embed chunks db_path fs =
      (inr {| index := vectors ++ (embed <$> chunks); docstore := docs ++ chunks |},
       fs') /\
    files fs' !! os.path_join db_path "index.faiss" =
      Some (IndexFaiss (vectors ++ (embed <$> chunks))) /\
    files fs' !! os.path_join db_path "index.pkl" = Some (IndexPkl (docs ++ chunks)).
Proof.
  intros Hfaiss Hpkl.
  unfold update_or_create_spec, fs_bind, path_exists, load_local.
  rewrite Hfaiss. rewrite bool_decide_eq_true_2 by eauto.
  cbn. rewrite Hfaiss, Hpkl.
  cbn. eexists. split; [reflexivity|]. cbn. split.
  - rewrite lookup_insert_ne by (apply not_eq_sym, index_files_differ).
    apply lookup_insert_eq.
  - apply lookup_insert_eq.
Qed.

(** The write sequence of the specification appends: after a create and an
    update the index holds the chunks of both calls, in order, once. *)
Lemma update_or_create_spec_appends chunks1 chunks2 (db_path : string) fs :
  files fs !! os.path_join db_path "index.faiss" = None ->
  os.path_join db_path "index.faiss" ∉ dirs fs ->
  exists fs1 fs2,
    update_or_create_spec embed chunks1 db_path fs =
      (inr (from_documents embed chunks1), fs1) /\
    update_or_create_spec embed chunks2 db_path fs1 =
      (inr {| index := embed <$> (chunks1 ++ chunks2);
              docstore := chunks1 ++ chunks2 |}, fs2) /\
    files fs2 !! os.path_join db_path "index.pkl" =
      Some (IndexPkl (chunks1 ++ chunks2)) /\
    length (chunks1 ++ chunks2) = (length chunks1 + length chunks2)%nat.
Proof.
  intros Hfile Hdir.
  destruct (update_or_create_spec_fresh chunks1 db_path fs Hfile Hdir)
    as (fs1 & H1 & Hfaiss & Hpkl).
  destruct (update_or_create_spec_existing chunks2 db_path fs1 _ _ Hfaiss Hpkl)
    as (fs2 & H2 & _ & Hpkl2).
  exists fs1, fs2. rewrite fmap_app.
  split; [exact H1|]. split; [exact H2|]. split; [exact Hpkl2|].
  apply length_app.
Qed.

End IndexFacts.

(** C4, on the code.  A first call on an empty disk creates the index with
    the chunks of the first upload.  A second call on the same path raises
    the [ValueError] of [load_local] and leaves the disk as the first call
    left it: the index holds the first upload only. *)
Theorem update_or_create_append_raises :
  let created :=
    admin.update_or_create_faiss_index sample_embed first_upload "data/" empty_disk in
  fst created = inr (admin.from_documents sample_embed first_upload) /\
  admin.files (snd created) !! "data/index.pkl" = Some (admin.IndexPkl first_upload) /\
  admin.update_or_create_faiss_index sample_embed second_upload "data/" (snd created) =
    (inl (ValueError "allow_dangerous_deserialization must be True to load a pickled index"),
     snd created).
Proof.
  cbv zeta.
  destruct (update_or_create_fresh sample_embed first_upload "data/" empty_disk)
    as (fs' & Hrun & Hfaiss & Hpkl & _).
  { discriminate. }
  { reflexivity. }
  { set_solver. }
  rewrite Hrun. cbn [fst snd]. split; [reflexivity|]. split; [exact Hpkl|].
  apply update_or_create_existing. rewrite Hfaiss. eauto.
Qed.

(** The same two calls through the write sequence of the specification. *)
Example update_or_create_spec_sample :
  exists fs1 fs2 : admin.filesystem string nat,
    admin.update_or_create_spec sample_embed first_upload "data/" empty_disk =
      (inr (admin.from_documents sample_embed first_upload), fs1) /\
    fst (admin.update_or_create_spec sample_embed second_upload "data/" fs1) =
      inr {| admin.index := [42; 28]%nat;
             admin.docstore := first_upload ++ second_upload |} /\
    admin.files fs2 !! "data/index.pkl" =
      Some (admin.IndexPkl (first_upload ++ second_upload)).
Proof.
  destruct (update_or_create_spec_appends sample_embed first_upload second_upload
              "data/" empty_disk) as (fs1 & fs2 & H1 & H2 & Hpkl & _).
  { reflexivity. }
  { set_solver. }
  exists fs1, fs2. split; [exact H1|]. split; [by rewrite H2|exact Hpkl].
Qed.

(** * Further properties *)

(** ** The fallback wrapper: what it leaves alone *)
Section FallbackMore.
Import llm_models.

Context {Args Val Exn : Type}.
Variable str : Exn -> string.
Variable is_Exception : Exn -> bool.
Variable type_error : Val -> Exn.

Implicit Types (self : @ModelWithFallback Args Val Exn) (m : method) (a : Args).
Implicit Types (tr : list (@event Args)).

(** X1. What the primary raises outside the class [Exception] (an
    interrupt, an exit) passes through every method of the wrapper: the
    fallback is not called and nothing is printed. *)
Theorem interrupt_passes_through self m a tr e :
  primary self m a tr = Raised e ->
  is_Exception e = false ->
  wrapper str is_Exception type_error self m a tr =
  (Raised e, tr ++ [Call Primary m a]).
Proof. apply wrapper_not_caught. Qed.

(** X2. A call of the wrapper only adds to the trace, and what it adds is
    the call of the primary alone, or that call followed by the call of
    the fallback, with one printed line between the two at most.  The
    fallback is called exactly when the [except] clause received an
    [Exception]: one the primary raised, or, in [astream], the [TypeError]
    of the [await] on what the primary returned. *)
Theorem wrapper_trace_shape self m a tr :
  exists new,
    snd (wrapper str is_Exception type_error self m a tr)
      = tr ++ Call Primary m a :: new /\
    (new = [] \/ new = [Call Fallback m a] \/
     exists line, new = [Print line; Call Fallback m a]) /\
    (new <> [] <->
     (exists e, primary self m a tr = Raised e /\ is_Exception e = true) \/
     (m = m_astream /\
      exists v, primary self m a tr = Returned v /\
                is_Exception (type_error v) = true)).
Proof.
  assert (m = m_astream \/ m <> m_astream) as [->|Hm]
    by (destruct m; (by left) || (right; discriminate)).
  - (* astream *)
    destruct (is_Exception
                match primary self m_astream a tr with
                | Returned v => type_error v
                | Raised e' => e'
                end) eqn:He.
    + pose proof (astream_falls_back str is_Exception type_error self a tr _
                    eq_refl He) as Hw.
      cbv zeta in Hw. rewrite Hw. cbn [snd].
      assert (Hcaught :
        (exists e, primary self m_astream a tr = Raised e /\ is_Exception e = true) \/
        (m_astream = m_astream /\
         exists v, primary self m_astream a tr = Returned v /\
                   is_Exception (type_error v) = true)).
      { destruct (primary self m_astream a tr) as [v|e']; [right|left]; eauto. }
      destruct (verbose self).
      * eexists. split; [by rewrite <- !app_assoc|].
        split; [right; right; eauto|]. split; [auto|discriminate].
      * eexists. split; [by rewrite <- !app_assoc|].
        split; [right; by left|]. split; [auto|discriminate].
    + exists [].
      assert (Hw : wrapper str is_Exception type_error self m_astream a tr =
                   (Raised match primary self m_astream a tr with
                           | Returned v => type_error v
                           | Raised e' => e'
                           end, tr ++ [Call Primary m_astream a])).
      { unfold wrapper, astream, try_except, bind, call, await_async_generator.
        destruct (primary self m_astream a tr) as [v|e']; by rewrite He. }
      rewrite Hw. split; [reflexivity|]. split; [by left|].
      split; [congruence|].
      intros [(e & Hp & Hex) | (_ & v & Hp & Hex)]; rewrite Hp in He; congruence.
  - destruct (primary self m a tr) as [v|e] eqn:Hp.
    + exists [].
      rewrite (wrapper_primary_returns str is_Exception type_error self m a tr v Hm Hp).
      split; [reflexivity|]. split; [by left|].
      split; [congruence|].
      intros [(e & He & _) | (Hm' & _)]; [discriminate He|contradiction].
    + destruct (is_Exception e) eqn:He.
      * pose proof (wrapper_primary_raises str is_Exception type_error
                      self m a tr e Hm Hp He) as Hw.
        cbv zeta in Hw. rewrite Hw. cbn [snd].
        destruct (verbose self).
        -- eexists. split; [by rewrite <- !app_assoc|].
           split; [right; right; eauto|]. split; [eauto|discriminate].
        -- eexists. split; [by rewrite <- !app_assoc|].
           split; [right; by left|]. split; [eauto|discriminate].
      * exists [].
        rewrite (wrapper_not_caught str is_Exception type_error self m a tr e Hp He).
        split; [reflexivity|]. split; [by left|].
        split; [congruence|].
        intros [(e' & He' & Hex) | (Hm' & _)]; [congruence|contradiction].
Qed.

(** X3. A wrapper made by [create_model_with_fallback] reports every
    fallback: in each of the five methods other than [astream], when the
    primary raises an [Exception] and the fallback returns [v], the method
    returns [v] and exactly one line is printed, between the two calls. *)
Theorem factory_wrapper_reports (primary_model fallback_model : @BaseChatModel Args Val Exn)
    m a tr e v :
  m <> m_astream ->
  primary_model m a tr = Raised e ->
  is_Exception e = true ->
  (forall tr', fallback_model m a tr' = Returned v) ->
  wrapper str is_Exception type_error
    (create_model_with_fallback primary_model fallback_model) m a tr =
  (Returned v,
   tr ++ [Call Primary m a;
          Print ("Primary model " +:+ method_name m +:+ " failed with error: "
                 +:+ str e +:+ ". Falling back to backup model.");
          Call Fallback m a]).
Proof.
  intros Hm Hp He Hf.
  pose proof (wrapper_primary_raises str is_Exception type_error
                (create_model_with_fallback primary_model fallback_model)
                m a tr e Hm Hp He) as Hw.
  cbv zeta in Hw. rewrite Hw. cbn. rewrite Hf.
  by rewrite <- !app_assoc.
Qed.

End FallbackMore.

Lemma interrupt_passes_through_witness :
  llm_models.wrapper id is_error not_awaitable interrupted
    llm_models.m_ainvoke "hello" [] =
  (llm_models.Raised "KeyboardInterrupt",
   [llm_models.Call llm_models.Primary llm_models.m_ainvoke "hello"]).
Proof.
  exact (interrupt_passes_through id is_error not_awaitable interrupted
           llm_models.m_ainvoke "hello" [] "KeyboardInterrupt" eq_refl eq_refl).
Defined.

Lemma factory_wrapper_reports_witness :
  llm_models.wrapper id is_error not_awaitable
    (llm_models.create_model_with_fallback timing_out answering)
    llm_models.m_generate "hello" [] =
  (llm_models.Returned "March 15",
   [llm_models.Call llm_models.Primary llm_models.m_generate "hello";
    llm_models.Print
      "Primary model _generate failed with error: timeout. Falling back to backup model.";
    llm_models.Call llm_models.Fallback llm_models.m_generate "hello"]).
Proof.
  exact (factory_wrapper_reports id is_error not_awaitable timing_out answering
           llm_models.m_generate "hello" [] "timeout" "March 15"
           ltac:(discriminate) eq_refl eq_refl (fun _ => eq_refl)).
Defined.

(** ** The chat script: a turn, and the shape of the history *)
Section ChatMore.
Import streamlit app.

Variable now : string -> string.
Context {Db : Type}.
Variable db : option Db.
Variable rag_chain : option (string -> string -> exception + string).

Lemma respond_answers (q : string) (p : page) (d : Db)
    (chain : string -> string -> exception + string) (h : list message) :
  db = Some d -> rag_chain = Some chain ->
  chat_history (state p) = Some h ->
  respond db rag_chain q p =
  match chain q (history_text (recent_history h)) with
  | inr response =>
      (Ok tt,
       {| state := set_chat_history
                     (Some (h ++ [HumanMessage q; AIMessage response])) (state p);
          screen := screen p ++ [ChatMessage "Human" q; ChatMessage "AI" response] |})
  | inl e =>
      (Uncaught e,
       {| state := state p; screen := screen p ++ [ChatMessage "Human" q] |})
  end.
Proof.
  intros -> -> Hh. unfold respond, bind, show, get_chat_history, get, raise, ret, modify.
  cbn. rewrite Hh. cbn.
  destruct (chain q _) as [e|response]; cbn; [reflexivity|].
  rewrite Hh. cbn. by rewrite <- app_assoc.
Qed.

(** X4. With a database and a chain, a submitted query whose chain gives an
    answer is one turn: the chain is given the query and the text of the
    recent window of the history before the turn, the run ends normally,
    and the history is the old one followed by the query and the answer,
    in that order and nothing else. *)
Theorem answered_turn_appends (ss : session_state) (q response : string) (d : Db)
    (chain : string -> string -> exception + string) (h : list message) :
  db = Some d -> rag_chain = Some chain ->
  q <> "" ->
  chat_history ss = Some h ->
  chain q (history_text (recent_history h)) = inr response ->
  exists shown,
    interact now db rag_chain (Submit q) ss =
    (Ok tt,
     {| state := set_chat_history
                   (Some (h ++ [HumanMessage q; AIMessage response])) ss;
        screen := shown ++ [ChatMessage "Human" q; ChatMessage "AI" response] |}).
Proof.
  intros Hdb Hchain Hq Hh Hr. destruct q as [|c q]; [congruence|].
  destruct (main_reaches_input now db rag_chain ss c q) as [shown Hmain].
  exists shown. unfold interact. rewrite Hmain.
  rewrite (respond_answers _ _ d chain h Hdb Hchain) by (cbn; by rewrite Hh).
  rewrite Hr. cbn. by rewrite Hh.
Qed.

(** X5. When the chain raises, the exception escapes the run, which
    nothing catches; the query has been shown, and the session is as
    before: neither the query nor any part of an answer is stored in the
    history.  (What else is on the page at that point is left open.) *)
Theorem failed_turn_escapes (ss : session_state) (q : string) (e : exception) (d : Db)
    (chain : string -> string -> exception + string) (h : list message) :
  db = Some d -> rag_chain = Some chain ->
  q <> "" ->
  chat_history ss = Some h ->
  chain q (history_text (recent_history h)) = inl e ->
  exists page_shown,
    interact now db rag_chain (Submit q) ss =
      (Uncaught e, {| state := ss; screen := page_shown |}) /\
    In (ChatMessage "Human" q) page_shown /\
    step now db rag_chain ss (Submit q) = ss.
Proof.
  intros Hdb Hchain Hq Hh Hr. destruct q as [|c q]; [congruence|].
  destruct (main_reaches_input now db rag_chain ss c q) as [shown Hmain].
  assert (Hi : interact now db rag_chain (Submit (String c q)) ss =
    (Uncaught e,
     {| state := ss; screen := shown ++ [ChatMessage "Human" (String c q)] |})).
  { unfold interact. rewrite Hmain.
    rewrite (respond_answers _ _ d chain h Hdb Hchain) by (cbn; by rewrite Hh).
    rewrite Hr. cbn. by rewrite Hh. }
  eexists. split; [exact Hi|]. split.
  - apply in_or_app. right. by left.
  - unfold step. by rewrite Hi.
Qed.

(** X6. Apart from a click on "Clear", an interaction only appends: the
    history before it is a prefix of the history after it, and what is
    appended is nothing or one query with its answer. *)
Theorem history_append_only (ss : session_state) (i : interaction) (h : list message) :
  i <> ClickClear ->
  chat_history ss = Some h ->
  exists added,
    chat_history (step now db rag_chain ss i) = Some (h ++ added) /\
    (added = [] \/
     exists q response, added = [HumanMessage q; AIMessage response]).
Proof.
  intros Hi Hh. pose proof (step_history now db rag_chain ss i) as Hs.
  rewrite Hh in Hs. cbn in Hs. destruct i as [| |q]; [|congruence|].
  - exists []. rewrite app_nil_r. split; [exact Hs|by left].
  - exists (turn db rag_chain q h). split; [exact Hs|].
    unfold turn. destruct q as [|c q]; [by left|].
    destruct db; [|by left]. destruct rag_chain as [chain|]; [|by left].
    destruct (chain _ _); [by left|]. right. eauto.
Qed.

End ChatMore.

(** ** The shape of the history and the labels of the window *)
Section ShapeFacts.
Import streamlit app.

Variable now : string -> string.
Context {Db : Type}.
Variable db : option Db.
Variable rag_chain : option (string -> string -> exception + string).

Lemma in_turns_app_turn (b : bool) (h : list message) (q r : string) :
  in_turns b h -> in_turns b (h ++ [HumanMessage q; AIMessage r]).
Proof.
  intros [Hlen Halt]. split.
  - rewrite length_app. cbn [length].
    rewrite Nat.even_add. rewrite Hlen. by destruct b.
  - intros i m Hi. apply lookup_app_Some in Hi.
    destruct Hi as [Hi | [Hge Hi]]; [by apply Halt|].
    assert (Hidx : i = (length h + (i - length h))%nat) by lia.
    destruct (i - length h)%nat as [|[|k]] eqn:Hk; cbn in Hi; [| |discriminate Hi].
    + injection Hi as <-. rewrite Hidx, Nat.even_add, Hlen. by destruct b.
    + injection Hi as <-. rewrite Hidx, Nat.even_add, Hlen. by destruct b.
Qed.

Lemma in_turns_turn (b : bool) (h : list message) (q : string) :
  in_turns b h -> in_turns b (h ++ turn db rag_chain q h).
Proof.
  intros Hh. unfold turn.
  destruct q as [|c q]; [by rewrite app_nil_r|].
  destruct db; [|by rewrite app_nil_r].
  destruct rag_chain as [chain|]; [|by rewrite app_nil_r].
  destruct (chain _ _); [by rewrite app_nil_r|].
  by apply in_turns_app_turn.
Qed.

Lemma in_turns_greeting : in_turns false [AIMessage greeting].
Proof.
  split; [reflexivity|]. intros [|i] m Hi; [|discriminate Hi].
  injection Hi as <-. reflexivity.
Qed.

Lemma in_turns_nil : in_turns true [].
Proof. split; [reflexivity|]. intros i m Hi. discriminate Hi. Qed.

Lemma step_shaped (b : bool) (ss : session_state) (i : interaction) :
  i <> ClickClear -> shaped b ss -> shaped b (step now db rag_chain ss i).
Proof.
  intros Hi (h & Hh & Hin). pose proof (step_history now db rag_chain ss i) as Hs.
  rewrite Hh in Hs. cbn in Hs. destruct i as [| |q]; [|congruence|].
  - by exists h.
  - eexists. split; [exact Hs|]. by apply in_turns_turn.
Qed.

Lemma step_first (i : interaction) :
  i <> ClickClear -> shaped false (step now db rag_chain empty_session i).
Proof.
  intros Hi. pose proof (step_history now db rag_chain empty_session i) as Hs.
  cbn in Hs. destruct i as [| |q]; [|congruence|].
  - eexists. split; [exact Hs|]. apply in_turns_greeting.
  - eexists. split; [exact Hs|].
    exact (in_turns_turn false [AIMessage greeting] q in_turns_greeting).
Qed.

Lemma step_clear (ss : session_state) :
  shaped true (step now db rag_chain ss ClickClear).
Proof.
  exists []. split; [apply (step_history now db rag_chain ss ClickClear)|].
  apply in_turns_nil.
Qed.

Lemma fold_shaped_no_clear (inputs : list interaction) (b : bool) (ss : session_state) :
  ~ In ClickClear inputs -> shaped b ss ->
  shaped b (fold_left (step now db rag_chain) inputs ss).
Proof.
  revert ss. induction inputs as [|i inputs IH]; intros ss Hin Hs; cbn; [exact Hs|].
  apply IH; [intros H; apply Hin; by right|].
  apply step_shaped; [|exact Hs]. intros ->. apply Hin. by left.
Qed.

Lemma fold_shaped_true (inputs : list interaction) (ss : session_state) :
  shaped true ss -> shaped true (fold_left (step now db rag_chain) inputs ss).
Proof.
  revert ss. induction inputs as [|i inputs IH]; intros ss Hs; cbn; [exact Hs|].
  apply IH. destruct i as [| |q].
  - by apply step_shaped.
  - apply step_clear.
  - by apply step_shaped.
Qed.

Lemma clear_in_or_not (inputs : list interaction) :
  In ClickClear inputs \/ ~ In ClickClear inputs.
Proof.
  induction inputs as [|i inputs [IH|IH]].
  - right. intros [].
  - left. by right.
  - destruct i as [| |q].
    + right. intros [H|H]; [discriminate H|by apply IH].
    + left. by left.
    + right. intros [H|H]; [discriminate H|by apply IH].
Qed.

Lemma fold_shaped_clear (inputs : list interaction) (ss : session_state) :
  In ClickClear inputs -> shaped true (fold_left (step now db rag_chain) inputs ss).
Proof.
  revert ss. induction inputs as [|i inputs IH]; intros ss Hin; [destruct Hin|].
  cbn. destruct Hin as [-> | Hin]; [|by apply IH].
  apply fold_shaped_true, step_clear.
Qed.

(** X7. The history of a session is made of whole turns.  Without a click
    on "Clear" it is the greeting followed by queries and answers in
    turn: its length is odd, the assistant speaks at the even places and
    the user at the odd ones.  After a click on "Clear" it is queries and
    answers in turn: its length is even and the user speaks at the even
    places. *)
Theorem history_in_turns (inputs : list interaction) :
  inputs <> [] ->
  exists h,
    chat_history (session now db rag_chain inputs) = Some h /\
    (~ In ClickClear inputs ->
       Nat.odd (length h) = true /\
       forall i m, h !! i = Some m -> is_human m = Nat.odd i) /\
    (In ClickClear inputs ->
       Nat.even (length h) = true /\
       forall i m, h !! i = Some m -> is_human m = Nat.even i).
Proof.
  intros Hne. unfold session.
  destruct (clear_in_or_not inputs) as [Hin|Hin].
  - destruct (fold_shaped_clear inputs empty_session Hin) as (h & Hh & Hlen & Halt).
    exists h. split; [exact Hh|]. split; [intros H; destruct (H Hin)|]. intros _.
    split; [exact Hlen|]. intros i m Hi. rewrite (Halt i m Hi).
    by destruct (Nat.even i).
  - destruct inputs as [|i inputs]; [congruence|]. cbn.
    assert (Hi : i <> ClickClear) by (intros ->; apply Hin; by left).
    assert (Hrest : ~ In ClickClear inputs) by (intros H; apply Hin; by right).
    destruct (fold_shaped_no_clear inputs false _ Hrest (step_first i Hi))
      as (h & Hh & Hlen & Halt).
    exists h. split; [exact Hh|]. split; [|intros H; destruct (Hin H)].
    intros _. split.
    + by rewrite <- Nat.negb_even, Hlen.
    + intros j m Hj. rewrite (Halt j m Hj), <- Nat.negb_even.
      by destruct (Nat.even j).
Qed.

Lemma history_line_role (i : nat) (msg : message) :
  history_line i msg =
  (if Nat.even i then "Human" else "AI") +:+ ": " +:+ content msg.
Proof. rewrite history_line_label. by destruct (Nat.even i). Qed.

Lemma window_roles (b : bool) (h : list message) (i : nat) (msg : message) :
  in_turns b h ->
  recent_history h !! i = Some msg ->
  is_human msg =
  if (4 <? length h)%nat then Nat.even i else Bool.eqb b (Nat.even i).
Proof.
  intros [Hlen Halt] Hi. unfold recent_history in Hi.
  destruct (4 <? length h)%nat eqn:Hlt.
  - apply Nat.ltb_lt in Hlt. rewrite lookup_drop in Hi.
    rewrite (Halt _ _ Hi), Nat.even_add.
    assert (Hk : Nat.even (length h - 4) = b).
    { rewrite <- Hlen. replace (length h) with (4 + (length h - 4))%nat at 2 by lia.
      rewrite Nat.even_add. change (Nat.even 4) with true.
      by destruct (Nat.even (length h - 4)). }
    rewrite Hk. by destruct b, (Nat.even i).
  - by apply Halt.
Qed.

(** X8. In a session without a click on "Clear" the labels of the history
    text are right exactly when the history has more than four messages:
    then every line of the window carries the role of its message; with up
    to four messages every line carries the other role (the greeting of the
    assistant is labelled "Human", the query of the user "AI"). *)
Theorem window_labels_without_clear (inputs : list interaction) :
  inputs <> [] ->
  ~ In ClickClear inputs ->
  exists h,
    chat_history (session now db rag_chain inputs) = Some h /\
    (4 < length h ->
       forall i msg, recent_history h !! i = Some msg ->
         history_line i msg =
         (if is_human msg then "Human" else "AI") +:+ ": " +:+ content msg) /\
    (length h <= 4 ->
       forall i msg, recent_history h !! i = Some msg ->
         history_line i msg =
         (if is_human msg then "AI" else "Human") +:+ ": " +:+ content msg).
Proof.
  intros Hne Hin. unfold session.
  destruct inputs as [|i0 inputs]; [congruence|]. cbn.
  assert (Hi : i0 <> ClickClear) by (intros ->; apply Hin; by left).
  assert (Hrest : ~ In ClickClear inputs) by (intros H; apply Hin; by right).
  destruct (fold_shaped_no_clear inputs false _ Hrest (step_first i0 Hi))
    as (h & Hh & Hturns).
  exists h. split; [exact Hh|]. split.
  - intros Hlt i msg Hw. rewrite history_line_role.
    rewrite (window_roles false h i msg Hturns Hw).
    apply Nat.ltb_lt in Hlt. rewrite Hlt. reflexivity.
  - intros Hle i msg Hw. rewrite history_line_role.
    rewrite (window_roles false h i msg Hturns Hw).
    apply Nat.ltb_ge in Hle. rewrite Hle. by destruct (Nat.even i).
Qed.

(** X9. After a click on "Clear" the labels are right whatever the length
    of the history: every line of the window carries the role of its
    message. *)
Theorem window_labels_after_clear (inputs : list interaction) :
  In ClickClear inputs ->
  exists h,
    chat_history (session now db rag_chain inputs) = Some h /\
    forall i msg, recent_history h !! i = Some msg ->
      history_line i msg =
      (if is_human msg then "Human" else "AI") +:+ ": " +:+ content msg.
Proof.
  intros Hin. unfold session.
  destruct (fold_shaped_clear inputs empty_session Hin) as (h & Hh & Hturns).
  exists h. split; [exact Hh|].
  intros i msg Hw. rewrite history_line_role.
  rewrite (window_roles true h i msg Hturns Hw).
  destruct (4 <? length h)%nat; by destruct (Nat.even i).
Qed.

End ShapeFacts.

Lemma answered_turn_appends_witness :
  exists shown,
    app.interact sample_clock (Some tt) (Some answering_chain)
      (app.Submit sample_query) fresh_chat =
    (streamlit.Ok tt,
     {| streamlit.state :=
          streamlit.set_chat_history
            (Some ([AIMessage app.greeting]
                   ++ [HumanMessage sample_query; AIMessage sample_answer]))
            fresh_chat;
        streamlit.screen :=
          shown ++ [streamlit.ChatMessage "Human" sample_query;
                    streamlit.ChatMessage "AI" sample_answer] |}).
Proof.
  exact (answered_turn_appends sample_clock (Some tt) (Some answering_chain)
           fresh_chat sample_query sample_answer tt answering_chain
           [AIMessage app.greeting]
           eq_refl eq_refl ltac:(discriminate) eq_refl eq_refl).
Defined.

Lemma failed_turn_escapes_witness :
  exists page_shown,
    app.interact sample_clock (Some tt) (Some failing_chain)
      (app.Submit sample_query) fresh_chat =
      (streamlit.Uncaught (OtherError "provider down"),
       {| streamlit.state := fresh_chat; streamlit.screen := page_shown |}) /\
    In (streamlit.ChatMessage "Human" sample_query) page_shown /\
    app.step sample_clock (Some tt) (Some failing_chain) fresh_chat
      (app.Submit sample_query) = fresh_chat.
Proof.
  exact (failed_turn_escapes sample_clock (Some tt) (Some failing_chain)
           fresh_chat sample_query (OtherError "provider down") tt failing_chain
           [AIMessage app.greeting]
           eq_refl eq_refl ltac:(discriminate) eq_refl eq_refl).
Defined.

Lemma history_append_only_witness :
  exists added,
    streamlit.chat_history
      (app.step sample_clock (Some tt) (Some answering_chain) fresh_chat
         (app.Submit sample_query))
    = Some ([AIMessage app.greeting] ++ added) /\
    (added = [] \/
     exists q response, added = [HumanMessage q; AIMessage response]).
Proof.
  exact (history_append_only sample_clock (Some tt) (Some answering_chain)
           fresh_chat (app.Submit sample_query) [AIMessage app.greeting]
           ltac:(discriminate) eq_refl).
Defined.

Lemma history_in_turns_witness :
  exists h,
    streamlit.chat_history
      (app.session sample_clock (Some tt) (Some answering_chain)
         [app.Open; app.Submit sample_query]) = Some h /\
    (~ In app.ClickClear [app.Open; app.Submit sample_query] ->
       Nat.odd (length h) = true /\
       forall i m, h !! i = Some m -> is_human m = Nat.odd i) /\
    (In app.ClickClear [app.Open; app.Submit sample_query] ->
       Nat.even (length h) = true /\
       forall i m, h !! i = Some m -> is_human m = Nat.even i).
Proof.
  exact (history_in_turns sample_clock (Some tt) (Some answering_chain)
           [app.Open; app.Submit sample_query] ltac:(discriminate)).
Defined.

Lemma window_labels_without_clear_witness :
  exists h,
    streamlit.chat_history
      (app.session sample_clock (Some tt) (Some answering_chain)
         [app.Open; app.Submit sample_query]) = Some h /\
    (4 < length h ->
       forall i msg, app.recent_history h !! i = Some msg ->
         app.history_line i msg =
         (if is_human msg then "Human" else "AI") +:+ ": " +:+ content msg) /\
    (length h <= 4 ->
       forall i msg, app.recent_history h !! i = Some msg ->
         app.history_line i msg =
         (if is_human msg then "AI" else "Human") +:+ ": " +:+ content msg).
Proof.
  refine (window_labels_without_clear sample_clock (Some tt) (Some answering_chain)
            [app.Open; app.Submit sample_query] ltac:(discriminate) _).
  intros [H|[H|[]]]; discriminate H.
Defined.

(** The history text of the second query of a session: the greeting of the
    assistant under "Human", the first query under "AI". *)
Example second_query_history_text :
  app.history_text
    (app.recent_history
       [AIMessage "Hello!"; HumanMessage "When is A2 due?"; AIMessage "March 15."]) =
  "Human: Hello!" +:+ nl +:+ "AI: When is A2 due?" +:+ nl +:+ "Human: March 15.".
Proof. reflexivity. Qed.

Lemma window_labels_after_clear_witness :
  exists h,
    streamlit.chat_history
      (app.session sample_clock (Some tt) (Some answering_chain)
         [app.Open; app.ClickClear; app.Submit sample_query]) = Some h /\
    forall i msg, app.recent_history h !! i = Some msg ->
      app.history_line i msg =
      (if is_human msg then "Human" else "AI") +:+ ": " +:+ content msg.
Proof.
  refine (window_labels_after_clear sample_clock (Some tt) (Some answering_chain)
            [app.Open; app.ClickClear; app.Submit sample_query] _).
  right. left. reflexivity.
Defined.

(** ** The sidebar *)
Section SidebarMore.
Import streamlit sidebar app.

Variable now : string -> string.
Context {Db : Type}.
Variable db : option Db.
Variable rag_chain : option (string -> string -> exception + string).

(** X10. A click on "Clear" ends the run at [st.rerun()]: the run that
    handles the click never shows "Chat cleared!".  The run that follows
    leaves the history empty and shows a page without any chat message,
    with a count of 0 and a disabled "Save". *)
Theorem clear_click_run (ss : session_state) :
  (exists shown,
     main now db rag_chain true None {| state := ss; screen := [] |} =
     (Rerun, {| state := set_chat_history (Some []) ss; screen := shown |}) /\
     ~ In (SuccessBox "Chat cleared!") shown) /\
  interact now db rag_chain ClickClear ss =
  (Ok tt,
   {| state := set_chat_history (Some []) ss;
      screen :=
        [Header "🦜 Virtual TA - ISOM 550 DDA";
         Markdown "# 🤖 Virtual TA";
         Markdown "**ISOM 550 - Data & Decision Analytics**";
         Markdown "*Goizueta Business School*";
         Markdown "---";
         Markdown "## 💬 Chat Management";
         Markdown ("**Messages in conversation:** " +:+ str_nat 0);
         Button "🗑️ Clear" false;
         Button "💾 Save" true;
         Markdown "---"] |}).
Proof.
  destruct ss as [[h|] pw pc]; unfold interact, main.
  all: cbn -[for_each save_chat_history str_nat String.append].
  all: split; [eexists; split; [reflexivity|]|reflexivity].
  all: cbn; intros H; repeat destruct H as [H|H]; try discriminate H; exact H.
Qed.

Lemma transcript_not_empty_notice (ss : session_state) (m : message) (h : list message) :
  chat_history ss = Some (m :: h) ->
  save_chat_history now ss <> "No conversation history to save.".
Proof.
  intros Hh. unfold save_chat_history. rewrite Hh. cbv zeta.
  rewrite fold_add_message, !append_assoc. discriminate.
Qed.

(** X11. The sidebar offers the download exactly when the history has a
    message: then "Save" carries the transcript, which is never the notice
    "No conversation history to save.", under a file name made of the time;
    without a history, or with an empty one, "Save" is disabled.  The
    sidebar leaves the session as it is. *)
Theorem sidebar_save_button (ss : session_state) :
  exists before,
    sidebar now false {| state := ss; screen := [] |} =
    (Ok tt,
     {| state := ss;
        screen := before ++
          [match chat_history ss with
           | Some (_ :: _) =>
               DownloadButton "💾 Save" (save_chat_history now ss)
                 ("chat_history_" +:+ now "%Y%m%d_%H%M%S" +:+ ".txt")
           | _ => Button "💾 Save" true
           end;
           Markdown "---"] |}) /\
    (forall m h, chat_history ss = Some (m :: h) ->
       save_chat_history now ss <> "No conversation history to save.").
Proof.
  destruct ss as [[[|m h]|] pw pc]; unfold sidebar.
  all: cbn -[save_chat_history str_nat String.append].
  all: unfold show; cbn -[save_chat_history str_nat String.append].
  all: eexists; split;
    [match goal with
     | |- (_, {| state := _; screen := ?l |}) = _ =>
         rewrite <- (firstn_skipn (length l - 2) l)
     end; reflexivity|].
  all: intros m' h' Hh; by apply (transcript_not_empty_notice _ m' h').
Qed.

End SidebarMore.

(** ** The password gate: visits and logout *)
Section GateMore.
Import streamlit admin admin_page.

(** X12. A visit without a flag in the session (the first one) shows the
    login form without an error and stops: nothing of the protected page
    is rendered, and the password box leaves its empty value in the
    session. *)
Theorem first_visit_shows_form (ss : session_state) :
  password_correct ss = None ->
  page_script false {| state := ss; screen := [] |} =
  (Stopped,
   {| state := match password ss with
               | None => set_password (Some "") ss
               | Some _ => ss
               end;
      screen :=
        [Markdown "# 🔐 Authentication Required";
         Markdown "**Knowledge Base Manager - Admin Access Only**";
         Markdown "---";
         TextInput "Enter admin password:" "password";
         Markdown "---";
         InfoBox "💡 **For Students**: Return to the main Virtual TA page to ask questions about course content."] |}).
Proof.
  intros Hpc. destruct ss as [ch [pw|] pc]; cbn in Hpc; subst pc; reflexivity.
Qed.

(** X13. Once the flag is set, a visit asks for nothing: it renders the
    protected page and leaves the session as it is. *)
Theorem authenticated_visit (ss : session_state) :
  password_correct ss = Some true ->
  page_script false {| state := ss; screen := [] |} =
  (Ok tt,
   {| state := ss;
      screen :=
        [Markdown "### 🔐 Admin Session";
         SuccessBox "✅ Authenticated as admin";
         Button "🚪 Logout" false;
         Markdown "---";
         Title "📚 Knowledge Base Manager";
         Markdown "*Admin Interface - Manage course materials and test the knowledge base*"] |}).
Proof.
  intros Hpc. destruct ss as [ch pw pc]; cbn in Hpc; subst pc; reflexivity.
Qed.

(** X14. A click on "Logout" sets the flag to [False] and runs the page
    again: the operator is back at the login form, which shows "Incorrect
    password" although no password was entered, and nothing of the
    protected page. *)
Theorem logout_returns_to_form (ss : session_state) :
  password_correct ss = Some true ->
  click_logout ss =
  (Stopped,
   {| state := match password ss with
               | None => set_password (Some "") (set_password_correct (Some false) ss)
               | Some _ => set_password_correct (Some false) ss
               end;
      screen :=
        [Markdown "# 🔐 Authentication Required";
         Markdown "**Knowledge Base Manager - Admin Access Only**";
         Markdown "---";
         TextInput "Enter admin password:" "password";
         ErrorBox "❌ Incorrect password. Please contact your instructor.";
         Markdown "---";
         InfoBox "💡 **For Students**: Return to the main Virtual TA page to ask questions about course content."] |}).
Proof.
  intros Hpc. destruct ss as [ch [pw|] pc]; cbn in Hpc; subst pc; reflexivity.
Qed.

End GateMore.

Lemma first_visit_shows_form_witness :
  fst (admin.page_script false
         {| streamlit.state := streamlit.empty_session; streamlit.screen := [] |})
  = streamlit.Stopped.
Proof.
  exact (f_equal fst (first_visit_shows_form streamlit.empty_session eq_refl)).
Defined.

Lemma authenticated_visit_witness :
  fst (admin.page_script false
         {| streamlit.state := logged_in; streamlit.screen := [] |})
  = streamlit.Ok tt.
Proof.
  exact (f_equal fst (authenticated_visit logged_in eq_refl)).
Defined.

Lemma logout_returns_to_form_witness :
  fst (admin_page.click_logout logged_in) = streamlit.Stopped.
Proof.
  exact (f_equal fst (logout_returns_to_form logged_in eq_refl)).
Defined.

(** ** The index on disk: creating, refusing, loading *)
Section IndexMore.
Import streamlit admin.

Context {Document Vector : Type}.
Variable embed : Document -> Vector.
Variable str : exception -> string.

Implicit Types (fs : filesystem Document Vector) (chunks : list Document).

(** The disk after the create branch. *)
Lemma update_or_create_fresh_disk chunks (db_path : string) fs :
  db_path <> "" ->
  files fs !! os.path_join db_path "index.faiss" = None ->
  os.path_join db_path "index.faiss" ∉ dirs fs ->
  update_or_create_faiss_index embed chunks db_path fs =
  (inr (from_documents embed chunks),
   {| dirs := {[ db_path ]} ∪ ({[ db_path ]} ∪ dirs fs);
      files := <[ os.path_join db_path "index.pkl" := IndexPkl chunks ]>
                 (<[ os.path_join db_path "index.faiss" := IndexFaiss (embed <$> chunks) ]>
                    (files fs)) |}).
Proof.
  intros Hpath Hfile Hdir. apply String.eqb_neq in Hpath.
  unfold update_or_create_faiss_index, fs_bind, path_exists, makedirs.
  rewrite Hfile. rewrite bool_decide_eq_false_2 by (intros [x Hx]; discriminate Hx).
  rewrite bool_decide_eq_false_2 by exact Hdir.
  cbn. rewrite Hpath. reflexivity.
Qed.

(** X15. Whatever the chunks, a call on a path that has an index raises
    the [ValueError] of the loader and leaves the disk as it is: nothing is
    appended and nothing is saved. *)
Theorem existing_index_is_never_updated chunks (db_path : string) fs :
  is_Some (files fs !! os.path_join db_path "index.faiss") ->
  update_or_create_faiss_index embed chunks db_path fs =
  (inl (ValueError "allow_dangerous_deserialization must be True to load a pickled index"),
   fs).
Proof. apply update_or_create_existing. Qed.



(** X18. On a disk without an index under "data/", [load_db] of [app.py]
    does not raise: it gives [None] and shows one error; the chain is
    [None] as well. *)
Theorem missing_index_disables_chat fs
    (build_chain : @FAISS Document Vector -> string -> string -> exception + string) :
  files fs !! "data/index.faiss" = None ->
  app_startup.load_db str "data/" fs =
    (None, [ErrorBox ("Error loading database: "
                      +:+ str (OtherError "could not read the index"))]) /\
  app_startup.db str fs = None /\
  app_startup.rag_chain str build_chain fs = None.
Proof.
  intros Hfile.
  assert (H : app_startup.load_db str "data/" fs =
    (None, [ErrorBox ("Error loading database: "
                      +:+ str (OtherError "could not read the index"))])).
  { unfold app_startup.load_db, load_local. cbn [negb].
    change (os.path_join "data/" "index.faiss") with "data/index.faiss".
    rewrite Hfile. reflexivity. }
  split; [exact H|].
  unfold app_startup.rag_chain, app_startup.db. rewrite H. by split.
Qed.

(** X19. The two loaders do not look in the same place: after the admin
    page has created the index under "data/", [load_db] of
    [utils/utils.py] with its default path "data/emb_db" raises, unless an
    index was there before. *)
Theorem utils_load_db_misses_admin_index chunks fs :
  files fs !! "data/index.faiss" = None ->
  "data/index.faiss" ∉ dirs fs ->
  files fs !! "data/emb_db/index.faiss" = None ->
  utils_db.load_db utils_db.kb_db_path
    (snd (update_or_create_faiss_index embed chunks "data/" fs)) =
  (inl (OtherError "could not read the index"), []).
Proof.
  intros Hfile Hdir Hemb.
  rewrite (update_or_create_fresh_disk chunks "data/" fs ltac:(discriminate) Hfile Hdir).
  unfold utils_db.load_db, load_local. cbn [snd files negb].
  change (os.path_join utils_db.kb_db_path "index.faiss")
    with "data/emb_db/index.faiss".
  change (os.path_join "data/" "index.faiss") with "data/index.faiss".
  change (os.path_join "data/" "index.pkl") with "data/index.pkl".
  rewrite !lookup_insert_ne by discriminate. rewrite Hemb. reflexivity.
Qed.

End IndexMore.

Lemma existing_index_is_never_updated_witness :
  admin.update_or_create_faiss_index sample_embed second_upload "data/" indexed_disk =
  (inl (ValueError "allow_dangerous_deserialization must be True to load a pickled index"),
   indexed_disk).
Proof.
  apply existing_index_is_never_updated.
  exists (admin.IndexFaiss [42%nat]). reflexivity.
Defined.



Lemma missing_index_disables_chat_witness :
  app_startup.db sample_str empty_disk = None.
Proof.
  exact (proj1 (proj2 (missing_index_disables_chat sample_str empty_disk
                         (fun _ _ _ => inr "unused") eq_refl))).
Defined.

Lemma utils_load_db_misses_admin_index_witness :
  utils_db.load_db utils_db.kb_db_path
    (snd (admin.update_or_create_faiss_index sample_embed first_upload "data/"
            empty_disk)) =
  (inl (OtherError "could not read the index"), []).
Proof.
  refine (utils_load_db_misses_admin_index sample_embed first_upload empty_disk _ _ _).
  - reflexivity.
  - intros H. vm_compute in H. discriminate H.
  - reflexivity.
Defined.

(** ** The upload action and the test search *)
Section UploadMore.
Import streamlit admin admin_page.

Context {Document Vector : Type}.
Variable embed : Document -> Vector.
Variable parse : loader_class -> string -> exception + list Document.
Variable mkstemp : filesystem Document Vector -> string.
Variable str : exception -> string.

Implicit Types (w : @workspace Document Vector).
Implicit Types (text_splitter : list Document -> exception + list Document).

Lemma process_file_keeps_absent (file : UploadedFile) text_splitter
    (fs : filesystem Document Vector) (path : string) :
  files fs !! path = None ->
  files (snd (process_file parse mkstemp file text_splitter fs)) !! path = None.
Proof.
  intros Habs. pose proof (process_file_unfold parse mkstemp file text_splitter fs) as H.
  cbv zeta in H. rewrite H. cbn [snd files].
  destruct (decide (path = mkstemp fs +:+ os.suffix (file_name file))) as [->|Hne].
  - apply lookup_delete_eq.
  - by rewrite lookup_delete_ne, lookup_insert_ne by congruence.
Qed.

Lemma process_files_keeps_absent (uploaded_files : list UploadedFile) text_splitter
    (all_chunks : list Document) w (path : string) :
  files (disk w) !! path = None ->
  files (disk (snd (process_files parse mkstemp uploaded_files text_splitter
                      all_chunks w))) !! path = None.
Proof.
  revert all_chunks w.
  induction uploaded_files as [|file rest IH]; intros all_chunks w Habs; [exact Habs|].
  cbn [process_files]. unfold act_bind at 1. unfold render at 1. cbn [fst snd].
  unfold act_bind at 1. unfold on_disk at 1. cbn [disk shown].
  pose proof (process_file_keeps_absent file text_splitter (disk w) path Habs) as Hf.
  destruct (process_file parse mkstemp file text_splitter (disk w)) as [[e|chunks] fs'];
    cbn [snd] in Hf; [exact Hf|].
  unfold act_bind at 1. unfold render at 1. cbn [disk shown].
  by apply IH.
Qed.

(** What the index update does to the files that are not the index. *)
Lemma update_or_create_other_files (chunks : list Document) (db_path : string)
    (fs : filesystem Document Vector) (path : string) :
  path <> os.path_join db_path "index.faiss" ->
  path <> os.path_join db_path "index.pkl" ->
  files (snd (update_or_create_faiss_index embed chunks db_path fs)) !! path
  = files fs !! path.
Proof.
  intros H1 H2. unfold update_or_create_faiss_index, fs_bind, path_exists, makedirs.
  destruct (bool_decide _ || bool_decide _); cbn; [reflexivity|].
  destruct (String.eqb db_path ""); cbn; [reflexivity|].
  by rewrite !lookup_insert_ne by congruence.
Qed.

(** The upload action, case by case. *)
Lemma process_uploads_unfold (uploaded_files : list UploadedFile) text_splitter w :
  process_uploads embed parse mkstemp str uploaded_files text_splitter w =
  match process_files parse mkstemp uploaded_files text_splitter [] w with
  | (inl e, w1) =>
      (inr tt,
       {| disk := disk w1;
          shown := shown w1 ++ [ErrorBox ("An error occurred: " +:+ str e)] |})
  | (inr [], w1) => (inr tt, w1)
  | (inr (c :: cs), w1) =>
      match update_or_create_faiss_index embed (c :: cs) "data/" (disk w1) with
      | (inl e, fs') =>
          (inr tt,
           {| disk := fs';
              shown := shown w1 ++
                [Markdown "Updating knowledge base...";
                 ErrorBox ("An error occurred: " +:+ str e)] |})
      | (inr db, fs') =>
          (inr tt,
           {| disk := fs';
              shown := shown w1 ++
                [Markdown "Updating knowledge base...";
                 SuccessBox ("Successfully processed " +:+ str_nat (length (c :: cs))
                             +:+ " chunks and updated the knowledge base!");
                 Markdown "### Summary";
                 Markdown ("- Total files processed: "
                           +:+ str_nat (length uploaded_files));
                 Markdown ("- Total chunks added: " +:+ str_nat (length (c :: cs)));
                 Markdown "- Database location: data/";
                 Button "🔍 Test the Updated Knowledge Base" false] |})
      end
  end.
Proof.
  unfold process_uploads, act_try, act_bind.
  destruct (process_files parse mkstemp uploaded_files text_splitter [] w)
    as [[e|[|c cs]] w1]; [reflexivity|reflexivity|].
  unfold render, on_disk. cbn [disk shown].
  destruct (update_or_create_faiss_index embed (c :: cs) "data/" (disk w1))
    as [[e|db] fs']; cbn [disk shown].
  - by rewrite <- app_assoc.
  - by rewrite <- !app_assoc.
Qed.

(** X20. The upload action never raises, and it leaves no temporary file
    behind, whichever file fails and wherever: a path that is not one of
    the two index files and was absent before the action is absent after
    it. *)
Theorem upload_leaves_no_temporary_file (uploaded_files : list UploadedFile)
    text_splitter w (path : string) :
  path <> "data/index.faiss" ->
  path <> "data/index.pkl" ->
  files (disk w) !! path = None ->
  let run := process_uploads embed parse mkstemp str uploaded_files text_splitter w in
  fst run = inr tt /\
  files (disk (snd run)) !! path = None.
Proof.
  intros H1 H2 Habs. cbv zeta. rewrite process_uploads_unfold.
  pose proof (process_files_keeps_absent uploaded_files text_splitter [] w path Habs)
    as Hloop.
  destruct (process_files parse mkstemp uploaded_files text_splitter [] w)
    as [[e|[|c cs]] w1]; cbn [snd] in Hloop; [by split|by split|].
  pose proof (update_or_create_other_files (c :: cs) "data/" (disk w1) path H1 H2)
    as Hup.
  destruct (update_or_create_faiss_index embed (c :: cs) "data/" (disk w1))
    as [[e|db] fs']; cbn [snd] in Hup; cbn [fst snd disk]; by rewrite Hup.
Qed.

Lemma process_files_app (l1 l2 : list UploadedFile) text_splitter
    (all_chunks : list Document) w :
  process_files parse mkstemp (l1 ++ l2) text_splitter all_chunks w =
  match process_files parse mkstemp l1 text_splitter all_chunks w with
  | (inr chunks, w') => process_files parse mkstemp l2 text_splitter chunks w'
  | (inl e, w') => (inl e, w')
  end.
Proof.
  revert all_chunks w. induction l1 as [|file rest IH]; intros all_chunks w.
  - reflexivity.
  - cbn [app process_files]. unfold act_bind, render, on_disk. cbn [disk shown].
    destruct (process_file parse mkstemp file text_splitter (disk w))
      as [[e|chunks] fs']; [reflexivity|].
    apply IH.
Qed.

(** X21. A file that fails ends the batch.  When the loop raises [e] on
    the files [l1], the action shows "An error occurred: <e>" and stops
    there: the index is not touched, the chunks of the files before the
    failing one are dropped, and the files [l2] selected after it are not
    looked at. *)
Theorem failed_file_aborts_batch (l1 l2 : list UploadedFile) text_splitter w
    (e : exception) :
  fst (process_files parse mkstemp l1 text_splitter [] w) = inl e ->
  let w1 := snd (process_files parse mkstemp l1 text_splitter [] w) in
  process_uploads embed parse mkstemp str (l1 ++ l2) text_splitter w =
  (inr tt,
   {| disk := disk w1;
      shown := shown w1 ++ [ErrorBox ("An error occurred: " +:+ str e)] |}).
Proof.
  intros Hfail. cbv zeta. rewrite process_uploads_unfold, process_files_app.
  destruct (process_files parse mkstemp l1 text_splitter [] w) as [[e'|chunks] w1];
    cbn in Hfail; [|discriminate Hfail].
  injection Hfail as ->. reflexivity.
Qed.

(** X22. Once an index exists, an upload that yields chunks cannot be
    added: the action announces the update, then shows the [ValueError] of
    the loader as "An error occurred: ...", and the disk is as the loop
    left it. *)
Theorem batch_on_existing_index_fails (uploaded_files : list UploadedFile)
    text_splitter w (c : Document) (cs : list Document) :
  fst (process_files parse mkstemp uploaded_files text_splitter [] w) = inr (c :: cs) ->
  let w1 := snd (process_files parse mkstemp uploaded_files text_splitter [] w) in
  is_Some (files (disk w1) !! "data/index.faiss") ->
  process_uploads embed parse mkstemp str uploaded_files text_splitter w =
  (inr tt,
   {| disk := disk w1;
      shown := shown w1 ++
        [Markdown "Updating knowledge base...";
         ErrorBox ("An error occurred: " +:+
           str (ValueError "allow_dangerous_deserialization must be True to load a pickled index"))] |}).
Proof.
  intros Hloop. cbv zeta. intros Hidx. rewrite process_uploads_unfold.
  destruct (process_files parse mkstemp uploaded_files text_splitter [] w)
    as [[e|chunks] w1]; cbn in Hloop, Hidx; [discriminate Hloop|].
  injection Hloop as ->.
  by rewrite (update_or_create_existing embed (c :: cs) "data/" (disk w1) Hidx).
Qed.


End UploadMore.

Section UploadOrder.
Import streamlit admin admin_page.

Context {Document Vector : Type}.
Variable parse : loader_class -> string -> exception + list Document.
Variable mkstemp : filesystem Document Vector -> string.
Variable str : exception -> string.

Implicit Types (w : @workspace Document Vector).
Implicit Types (text_splitter : list Document -> exception + list Document).

(** X24. When the loop gets through all the files, every file gave its
    chunks: what the splitter made of what the loader for the file's
    suffix read from the bytes of the upload.  The chunks the loop hands on
    are these, file after file in the order of the selection, each file's
    chunks in the order of the splitter, after the chunks the loop started
    with; and the page has, for each file in that order, the line
    "Processing <name>..." and the line with the number of chunks of that
    file. *)
Theorem batch_chunks_in_upload_order (uploaded_files : list UploadedFile)
    text_splitter (all_chunks result : list Document) w :
  fst (process_files parse mkstemp uploaded_files text_splitter all_chunks w)
    = inr result ->
  let per_file :=
    chunks_per_file parse mkstemp uploaded_files text_splitter (disk w) in
  length per_file = length uploaded_files /\
  result = all_chunks ++ concat per_file /\
  shown (snd (process_files parse mkstemp uploaded_files text_splitter all_chunks w))
  = shown w ++
    concat (zip_with
              (fun file chunks =>
                 [Markdown ("Processing " +:+ file_name file +:+ "...");
                  Markdown ("✅ Extracted " +:+ str_nat (length chunks)
                            +:+ " chunks from " +:+ file_name file)])
              uploaded_files per_file).
Proof.
  cbv zeta. revert all_chunks w.
  induction uploaded_files as [|file rest IH]; intros all_chunks w Hok.
  - cbn in Hok. injection Hok as <-.
    cbn. by rewrite !app_nil_r.
  - cbn [process_files chunks_per_file] in *. unfold act_bind, render, on_disk in *.
    cbn [disk shown] in *.
    pose proof (process_file_unfold parse mkstemp file text_splitter (disk w)) as Hpf.
    cbv zeta in Hpf. rewrite Hpf in *. clear Hpf.
    destruct (parse _ (getvalue file)) as [e|documents]; [discriminate Hok|].
    destruct (text_splitter documents) as [e|chunks]; [discriminate Hok|].
    destruct (IH _ _ Hok) as (Hlen & Hres & Hshown).
    cbn [disk shown] in *.
    split; [cbn; by rewrite Hlen|].
    split; [cbn; by rewrite Hres, app_assoc|].
    rewrite Hshown. cbn [zip_with concat]. by rewrite <- !app_assoc.
Qed.

(** [db.similarity_search_with_relevance_scores] *)
Variable similarity_search_with_relevance_scores :
  @FAISS Document Vector -> string -> nat -> exception + list (Document * Z).

(** X25. On a disk without an index under "data/" the test search does
    not raise: it shows "Error searching database: ..." and returns no
    result and no retriever. *)
Theorem search_without_index (query : string) (k : nat) w :
  files (disk w) !! "data/index.faiss" = None ->
  test_embedding_search str similarity_search_with_relevance_scores query k w =
  (inr ([], None),
   {| disk := disk w;
      shown := shown w ++
        [ErrorBox ("Error searching database: "
                   +:+ str (OtherError "could not read the index"))] |}).
Proof.
  intros Hfile. unfold test_embedding_search, act_try, act_bind, on_disk, load_local.
  cbn [negb].
  change (os.path_join "data/" "index.faiss") with "data/index.faiss".
  rewrite Hfile. reflexivity.
Qed.

(** X26. With the two index files on disk the test search loads the index
    (this loader is given the permission) and searches it with the [k] of
    the operator.  A search that raises is reported on the page and gives
    no result; a search that returns gives its results, and the retriever
    is the loaded index with the same [k].  The disk is not changed. *)
Theorem search_with_index (query : string) (k : nat) w
    (vectors : list Vector) (docs : list Document) :
  files (disk w) !! "data/index.faiss" = Some (IndexFaiss vectors) ->
  files (disk w) !! "data/index.pkl" = Some (IndexPkl docs) ->
  let db := {| index := vectors; docstore := docs |} in
  test_embedding_search str similarity_search_with_relevance_scores query k w =
  match similarity_search_with_relevance_scores db query k with
  | inr results =>
      (inr (results, Some (db, k)), {| disk := disk w; shown := shown w |})
  | inl e =>
      (inr ([], None),
       {| disk := disk w;
          shown := shown w ++ [ErrorBox ("Error searching database: " +:+ str e)] |})
  end.
Proof.
  intros Hfaiss Hpkl. cbv zeta.
  unfold test_embedding_search, act_try, act_bind, on_disk, load_local.
  cbn [negb].
  change (os.path_join "data/" "index.faiss") with "data/index.faiss".
  change (os.path_join "data/" "index.pkl") with "data/index.pkl".
  rewrite Hfaiss, Hpkl.
  by destruct (similarity_search_with_relevance_scores _ query k).
Qed.

End UploadOrder.

Lemma upload_leaves_no_temporary_file_witness :
  fst (admin_page.process_uploads sample_embed sample_parse sample_mkstemp sample_str
         [sample_upload] sample_splitter (blank_page empty_disk)) = inr tt /\
  admin.files
    (admin_page.disk
       (snd (admin_page.process_uploads sample_embed sample_parse sample_mkstemp
               sample_str [sample_upload] sample_splitter (blank_page empty_disk))))
    !! "/tmp/tmpk3v9x1.TXT" = None.
Proof.
  refine (upload_leaves_no_temporary_file sample_embed sample_parse sample_mkstemp
            sample_str [sample_upload] sample_splitter (blank_page empty_disk)
            "/tmp/tmpk3v9x1.TXT" _ _ _).
  - discriminate.
  - discriminate.
  - reflexivity.
Defined.

Lemma failed_file_aborts_batch_witness :
  admin_page.process_uploads sample_embed sample_parse sample_mkstemp sample_str
    ([empty_upload] ++ [sample_upload]) sample_splitter (blank_page empty_disk) =
  (inr tt,
   {| admin_page.disk :=
        admin_page.disk
          (snd (admin_page.process_files sample_parse sample_mkstemp [empty_upload]
                  sample_splitter [] (blank_page empty_disk)));
      admin_page.shown :=
        admin_page.shown
          (snd (admin_page.process_files sample_parse sample_mkstemp [empty_upload]
                  sample_splitter [] (blank_page empty_disk)))
        ++ [streamlit.ErrorBox ("An error occurred: "
                                +:+ sample_str (OtherError "empty file"))] |}).
Proof.
  refine (failed_file_aborts_batch sample_embed sample_parse sample_mkstemp sample_str
            [empty_upload] [sample_upload] sample_splitter (blank_page empty_disk)
            (OtherError "empty file") _).
  vm_compute. reflexivity.
Defined.

(** What the operator sees of that batch. *)
Example failed_batch_page :
  admin_page.shown
    (snd (admin_page.process_uploads sample_embed sample_parse sample_mkstemp
            sample_str [empty_upload; sample_upload] sample_splitter
            (blank_page empty_disk))) =
  [streamlit.Markdown "Processing blank.txt...";
   streamlit.ErrorBox "An error occurred: empty file"].
Proof. vm_compute. reflexivity. Qed.

Lemma batch_on_existing_index_fails_witness :
  admin_page.shown
    (snd (admin_page.process_uploads sample_embed sample_parse sample_mkstemp
            sample_str [sample_upload] sample_splitter (blank_page indexed_disk))) =
  [streamlit.Markdown "Processing syllabus.TXT...";
   streamlit.Markdown "✅ Extracted 1 chunks from syllabus.TXT";
   streamlit.Markdown "Updating knowledge base...";
   streamlit.ErrorBox
     "An error occurred: allow_dangerous_deserialization must be True to load a pickled index"].
Proof.
  refine (eq_trans
            (f_equal (fun r => admin_page.shown (snd r))
               (batch_on_existing_index_fails sample_embed sample_parse sample_mkstemp
                  sample_str [sample_upload] sample_splitter (blank_page indexed_disk)
                  "Week 1: regression" [] _ _)) _).
  - vm_compute. reflexivity.
  - exists (admin.IndexFaiss [42%nat]). vm_compute. reflexivity.
  - vm_compute. reflexivity.
Defined.


Lemma batch_chunks_in_upload_order_witness :
  ["Week 1: regression"; "Week 1: regression"] =
  [] ++ concat (admin_page.chunks_per_file sample_parse sample_mkstemp
                  [sample_upload; sample_upload] sample_splitter
                  (admin_page.disk (blank_page empty_disk))).
Proof.
  refine (proj1 (proj2 (batch_chunks_in_upload_order sample_parse sample_mkstemp
            [sample_upload; sample_upload] sample_splitter []
            ["Week 1: regression"; "Week 1: regression"] (blank_page empty_disk) _))).
  vm_compute. reflexivity.
Defined.

Lemma search_without_index_witness :
  fst (admin_page.test_embedding_search sample_str sample_search "regression" 3
         (blank_page empty_disk)) = inr ([], None).
Proof.
  exact (f_equal fst (search_without_index sample_str sample_search "regression" 3
                        (blank_page empty_disk) eq_refl)).
Defined.

Lemma search_with_index_witness :
  fst (admin_page.test_embedding_search sample_str sample_search "deadline" 3
         (blank_page indexed_disk)) =
  inr ([("The deadline for Assignment 2 is March 15.", 1%Z)],
       Some ({| admin.index := [42%nat]; admin.docstore := first_upload |}, 3%nat)).
Proof.
  exact (f_equal fst (search_with_index sample_str sample_search "deadline" 3
                        (blank_page indexed_disk) [42%nat] first_upload
                        eq_refl eq_refl)).
Defined.

(** ** The extension of the temporary file *)
Section PathFacts.
Import os admin.

Lemma append_cons (c : ascii) (a b : string) :
  String c a +:+ b = String c (a +:+ b).
Proof. reflexivity. Qed.

Lemma length_append (a b : string) :
  String.length (a +:+ b) = (String.length a + String.length b)%nat.
Proof.
  induction a as [|x a IH]; [reflexivity|].
  rewrite append_cons. cbn [String.length]. by rewrite IH.
Qed.

Lemma rfind_app (c : ascii) (a b : string) :
  rfind c (a +:+ b) =
  match rfind c b with
  | Some j => Some (String.length a + j)%nat
  | None => rfind c a
  end.
Proof.
  induction a as [|x a IH].
  - change ("" +:+ b) with b. by destruct (rfind c b).
  - rewrite append_cons. cbn [rfind String.length]. rewrite IH.
    by destruct (rfind c b).
Qed.

Lemma rfind_split (c : ascii) (s : string) (i : nat) :
  rfind c s = Some i ->
  exists pre t,
    s = pre +:+ String c t /\ String.length pre = i /\ rfind c t = None.
Proof.
  revert i. induction s as [|x s IH]; intros i Hi; [discriminate Hi|].
  cbn [rfind] in Hi. destruct (rfind c s) as [j|] eqn:Hs.
  - injection Hi as <-. destruct (IH j eq_refl) as (pre & t & -> & Hlen & Ht).
    exists (String x pre), t. rewrite append_cons. cbn [String.length].
    by rewrite Hlen.
  - destruct (Ascii.eqb x c) eqn:Hx; [|discriminate Hi].
    injection Hi as <-. apply Ascii.eqb_eq in Hx. subst x.
    by exists "", s.
Qed.

Lemma substring_skip (a b : string) (m : nat) :
  String.substring (String.length a) m (a +:+ b) = String.substring 0 m b.
Proof.
  induction a as [|x a IH]; [reflexivity|].
  rewrite append_cons. cbn [String.length String.substring]. exact IH.
Qed.

Lemma substring_all (s : string) :
  String.substring 0 (String.length s) s = s.
Proof.
  induction s as [|x s IH]; [reflexivity|].
  cbn [String.length String.substring]. by rewrite IH.
Qed.

(** The part of a string after its last [c]. *)
Lemma after_last (c : ascii) (pre t : string) :
  String.substring (S (String.length pre))
    (String.length (pre +:+ String c t) - S (String.length pre))
    (pre +:+ String c t) = t.
Proof.
  replace (pre +:+ String c t) with ((pre +:+ String c "") +:+ t)
    by (by rewrite append_assoc).
  replace (S (String.length pre)) with (String.length (pre +:+ String c ""))
    by (rewrite length_append; cbn; lia).
  rewrite substring_skip.
  replace (String.length ((pre +:+ String c "") +:+ t)
           - String.length (pre +:+ String c ""))%nat
    with (String.length t) by (rewrite (length_append _ t); lia).
  apply substring_all.
Qed.

Lemma name_no_slash (p : string) : rfind "/" (name p) = None.
Proof.
  unfold name. destruct (rfind "/" p) as [i|] eqn:Hp; [|exact Hp].
  destruct (rfind_split _ _ _ Hp) as (pre & t & -> & <- & Ht).
  by rewrite after_last.
Qed.

Lemma name_app (stem s : string) :
  rfind "/" s = None -> name (stem +:+ s) = name stem +:+ s.
Proof.
  intros Hs. unfold name. rewrite rfind_app, Hs.
  destruct (rfind "/" stem) as [i|] eqn:Hp; [|reflexivity].
  destruct (rfind_split _ _ _ Hp) as (pre & t & -> & <- & Ht).
  rewrite after_last.
  replace ((pre +:+ String "/" t) +:+ s) with (pre +:+ String "/" (t +:+ s))
    by (by rewrite append_assoc).
  by rewrite after_last.
Qed.

(** The suffix of a path is empty, or a dot and a non-empty rest without a
    dot or a slash. *)
Lemma suffix_shape (p : string) :
  suffix p = "" \/
  exists t, suffix p = String "." t /\ t <> "" /\ rfind "." t = None /\
            rfind "/" (String "." t) = None.
Proof.
  unfold suffix. pose proof (name_no_slash p) as Hn.
  destruct (rfind "." (name p)) as [i|] eqn:Hp; [|by left].
  destruct (_ && _) eqn:Hc; [|by left]. right.
  apply andb_true_iff in Hc as [_ Hi]. apply Nat.ltb_lt in Hi.
  destruct (rfind_split _ _ _ Hp) as (pre & t & Hname & <- & Ht).
  rewrite Hname in *. exists t.
  rewrite length_append in Hi. cbn [String.length] in Hi.
  split; [|split; [|split]].
  - replace (String.length (pre +:+ String "." t) - String.length pre)%nat
      with (String.length (String "." t))
      by (rewrite length_append; lia).
    rewrite substring_skip. apply substring_all.
  - intros ->. cbn in Hi. lia.
  - exact Ht.
  - rewrite rfind_app in Hn. by destruct (rfind "/" (String "." t)).
Qed.

Lemma suffix_of_dotted (u t : string) :
  u <> "" -> t <> "" -> rfind "." t = None ->
  rfind "/" u = None -> rfind "/" (String "." t) = None ->
  suffix (u +:+ String "." t) = String "." t.
Proof.
  intros Hu Ht Hdot Hsu Hst. unfold suffix.
  assert (Hname : name (u +:+ String "." t) = u +:+ String "." t).
  { unfold name. by rewrite rfind_app, Hst, Hsu. }
  rewrite Hname, rfind_app. cbn [rfind]. rewrite Hdot, Ascii.eqb_refl.
  cbv beta iota.
  rewrite Nat.add_0_r, length_append. cbn [String.length].
  assert (0 < String.length u) by (destruct u; [congruence|cbn; lia]).
  assert (0 < String.length t) by (destruct t; [congruence|cbn; lia]).
  replace (0 <? String.length u)%nat with true by (symmetry; apply Nat.ltb_lt; lia).
  replace (String.length u <? String.length u + S (String.length t) - 1)%nat
    with true by (symmetry; apply Nat.ltb_lt; lia).
  cbn [andb].
  replace (String.length u + S (String.length t) - String.length u)%nat
    with (String.length (String "." t)) by (cbn; lia).
  rewrite substring_skip. apply substring_all.
Qed.

Lemma name_name (p : string) : name (name p) = name p.
Proof. unfold name at 1. by rewrite name_no_slash. Qed.

Lemma suffix_name (p : string) : suffix (name p) = suffix p.
Proof. unfold suffix. by rewrite name_name. Qed.

(** The name [tempfile] builds keeps the suffix it was given. *)
Lemma suffix_temporary (stem p : string) :
  name stem <> "" -> suffix stem = "" ->
  suffix (stem +:+ suffix p) = suffix p.
Proof.
  intros Hstem Hplain.
  destruct (suffix_shape p) as [-> | (t & -> & Ht & Hdot & Hslash)].
  - by rewrite append_empty_r.
  - rewrite <- suffix_name, (name_app _ _ Hslash).
    apply suffix_of_dotted; auto. apply name_no_slash.
Qed.

Lemma get_file_loader_class (path : string) :
  class (get_file_loader path) =
  if String.eqb (lower (suffix path)) ".pdf" then PyPDFLoader
  else if String.eqb (lower (suffix path)) ".docx" then Docx2txtLoader
  else if String.eqb (lower (suffix path)) ".txt" then TextLoader
  else UnstructuredFileLoader.
Proof.
  unfold get_file_loader.
  repeat match goal with |- context [if ?b then _ else _] => destruct b end;
    reflexivity.
Qed.

Context {Document Vector : Type}.
Variable parse : loader_class -> string -> exception + list Document.
Variable mkstemp : filesystem Document Vector -> string.

(** X27. The loader is chosen by the extension of the upload.  When the
    stem [tempfile] picks has a non-empty last component without an
    extension of its own, the temporary file has the suffix of the
    upload's name, [get_file_loader] gives it the loader it would give the
    upload's name, and [process_file] returns what that loader and the
    splitter make of the bytes. *)
Theorem temporary_file_keeps_extension (file : UploadedFile)
    (text_splitter : list Document -> exception + list Document)
    (fs : filesystem Document Vector) :
  name (mkstemp fs) <> "" ->
  suffix (mkstemp fs) = "" ->
  let tmp_file_path := mkstemp fs +:+ suffix (file_name file) in
  suffix tmp_file_path = suffix (file_name file) /\
  class (get_file_loader tmp_file_path) = class (get_file_loader (file_name file)) /\
  fst (process_file parse mkstemp file text_splitter fs) =
    match parse (class (get_file_loader (file_name file))) (getvalue file) with
    | inl e => inl e
    | inr documents => text_splitter documents
    end.
Proof.
  intros Hstem Hplain. cbv zeta.
  pose proof (suffix_temporary (mkstemp fs) (file_name file) Hstem Hplain) as Hsuf.
  assert (Hclass : class (get_file_loader (mkstemp fs +:+ suffix (file_name file)))
                   = class (get_file_loader (file_name file))).
  { by rewrite !get_file_loader_class, Hsuf. }
  split; [exact Hsuf|]. split; [exact Hclass|].
  pose proof (process_file_unfold parse mkstemp file text_splitter fs) as H.
  cbv zeta in H. rewrite H. cbn [fst]. by rewrite Hclass.
Qed.

End PathFacts.

Lemma temporary_file_keeps_extension_witness :
  fst (admin.process_file sample_parse sample_mkstemp sample_upload sample_splitter
         empty_disk) =
  match sample_parse (admin.class (admin.get_file_loader "syllabus.TXT"))
          "Week 1: regression" with
  | inl e => inl e
  | inr documents => sample_splitter documents
  end.
Proof.
  refine (proj2 (proj2 (temporary_file_keeps_extension sample_parse sample_mkstemp
                          sample_upload sample_splitter empty_disk _ _))).
  - discriminate.
  - reflexivity.
Defined.

(** Extensions in capitals, several dots, no extension. *)
Example get_file_loader_samples :
  admin.class (admin.get_file_loader "/tmp/tmpk3v9x1.PDF") = admin.PyPDFLoader /\
  admin.class (admin.get_file_loader "notes.v2.Docx") = admin.Docx2txtLoader /\
  admin.class (admin.get_file_loader "README") = admin.UnstructuredFileLoader /\
  admin.class (admin.get_file_loader ".txt") = admin.UnstructuredFileLoader.
Proof. repeat split; vm_compute; reflexivity. Qed.
